(** * Trace Eurorack Module: circuit build scripts

    A shallow embedding of the three Python files of the repository

      - [circuits/__init__.py]     (package constants and [init_skidl]),
      - [circuits/power_supply.py] (the power-supply circuit definition),
      - [circuits/build.py]        (the build orchestrator),

    together with the properties of them that the specification states.

    The scripts are glue over the operating system (files, environment
    variables, child processes) and over the SKiDL circuit library.  The
    operating system is modelled by an explicit file-system map and by
    oracles for what the scripts cannot decide themselves (the exit code of
    a child process, the diagnostics of the electrical-rules check); the
    part of SKiDL's object model that the script drives (parts, nets, pin
    membership) is modelled as a record that the calls of the script
    update in order.

    The file system of the model holds what the scripts themselves make:
    the output directory and the netlist file.  The interpreter and the
    library write files of their own on the way (the byte-code cache of
    the package, the log, the report of the rules check and the backup of
    the parts, all named after the script and put in its working
    directory); they are left out, and so is the text of the netlist.
    Accordingly, where an import or a call of the library has run, the
    statements below say what is in the file system afterwards, not that
    the rest of it stays as it was, and none compares the content of
    files. *)

From Stdlib Require Import ZArith String Ascii List Bool Lia DecimalString.
From Stdlib Require Import Sorting.Sorted Sorting.Permutation.
From stdpp Require Import gmap strings list fin_maps.

Local Open Scope string_scope.
Local Open Scope list_scope.
Local Open Scope stdpp_scope.

(** ** Python values shared by the three files *)

(** [s * n] on strings, as in ['=' * 60]. *)
Fixpoint str_mul (s : string) (n : nat) : string :=
  match n with
  | O => ""
  | S k => s +:+ str_mul s k
  end.

(** The line feed of ["\n"]. *)
Definition nl : string := String (ascii_of_nat 10) "".

(** [sep.join(parts)]. *)
Fixpoint str_join (sep : string) (parts : list string) : string :=
  match parts with
  | [] => ""
  | [x] => x
  | x :: rest => x +:+ sep +:+ str_join sep rest
  end.

(** [s.startswith(pre)]. *)
Definition startswith (s pre : string) : bool := String.prefix pre s.

(** Truth value of a string: the empty string is false. *)
Definition str_truthy (s : string) : bool :=
  match s with
  | EmptyString => false
  | String _ _ => true
  end.

(** ** Paths ([pathlib.Path])

    A path is the list of its components below the file-system root, the
    innermost component first: [Path('/a/b/c')] is [["c"; "b"; "a"]].  With
    this orientation [p / name] is a cons and [p.parent] is the tail; the
    parent of the root is the root, as in pathlib. *)
Module Path.

Abbreviation t := (list string).

(** [p / name], for a [name] that is a single component. *)
Definition join (p : t) (name : string) : t := name :: p.

(** [p.parent]. *)
Definition parent (p : t) : t :=
  match p with
  | [] => []
  | _ :: up => up
  end.

(** [str(p)]. *)
Definition str (p : t) : string := "/" +:+ str_join "/" (rev p).

End Path.

Infix "//" := Path.join (at level 40, left associativity).

(** ** The file system and the errors of its calls *)

Inductive exn :=
| FileExistsError
| FileNotFoundError
| NotADirectoryError
| IsADirectoryError.

(** The result of a Python call: a value, or an exception on its way up. *)
Inductive outcome (A : Type) :=
| Returns (a : A)
| Raises (e : exn).
Arguments Returns {A} a.
Arguments Raises {A} e.

Module FS.

Inductive kind := Dir | File.

(** What is stored at each path other than the root, which always is a
    directory. *)
Abbreviation t := (gmap (list string) kind).

(** The result of walking down to a path, as the kernel resolves it:
    an entry is reached only through directories. *)
Inductive resolved :=
| Found (k : kind)
| Missing      (* ENOENT: a component does not exist *)
| NotDir.      (* ENOTDIR: a component on the way is not a directory *)

Fixpoint resolve (fs : t) (p : Path.t) : resolved :=
  match p with
  | [] => Found Dir
  | _ :: up =>
      match resolve fs up with
      | Found Dir =>
          match fs !! p with
          | Some k => Found k
          | None => Missing
          end
      | Found File => NotDir
      | Missing => Missing
      | NotDir => NotDir
      end
  end.

(** [Path.exists()] and [Path.is_dir()]. *)
Definition exists_ (fs : t) (p : Path.t) : bool :=
  match resolve fs p with
  | Found _ => true
  | _ => false
  end.

Definition is_dir (fs : t) (p : Path.t) : bool :=
  match resolve fs p with
  | Found Dir => true
  | _ => false
  end.

Definition is_file (fs : t) (p : Path.t) : bool :=
  match resolve fs p with
  | Found File => true
  | _ => false
  end.

(** [os.mkdir(p)]: creates one directory level. *)
Definition os_mkdir (fs : t) (p : Path.t) : outcome t :=
  match p with
  | [] => Raises FileExistsError
  | _ :: up =>
      match resolve fs up with
      | Found Dir =>
          match fs !! p with
          | Some _ => Raises FileExistsError
          | None => Returns (<[p := Dir]> fs)
          end
      | Found File => Raises NotADirectoryError
      | NotDir => Raises NotADirectoryError
      | Missing => Raises FileNotFoundError
      end
  end.

(** [Path.mkdir(parents=False, exist_ok=exist_ok)]: pathlib calls
    [os.mkdir] and, for an [OSError] other than [FileNotFoundError],
    re-raises it unless [exist_ok] holds and the path is a directory. *)
Definition mkdir1 (exist_ok : bool) (fs : t) (p : Path.t) : outcome t :=
  match os_mkdir fs p with
  | Returns fs' => Returns fs'
  | Raises FileNotFoundError => Raises FileNotFoundError
  | Raises e => if exist_ok && is_dir fs p then Returns fs else Raises e
  end.

(** [Path.mkdir(parents=True, exist_ok=exist_ok)]: on
    [FileNotFoundError] pathlib first makes the parent with
    [parents=True, exist_ok=True] and then retries without [parents]. *)
Fixpoint mkdir_parents (exist_ok : bool) (fs : t) (p : Path.t) : outcome t :=
  match os_mkdir fs p with
  | Returns fs' => Returns fs'
  | Raises FileNotFoundError =>
      match p with
      | [] => Raises FileNotFoundError
      | _ :: up =>
          match mkdir_parents true fs up with
          | Returns fs1 => mkdir1 exist_ok fs1 p
          | Raises e => Raises e
          end
      end
  | Raises e => if exist_ok && is_dir fs p then Returns fs else Raises e
  end.

(** [open(p, 'w')] followed by a write and a close: the file is created
    or truncated; a directory cannot be opened for writing. *)
Definition write_file (fs : t) (p : Path.t) : outcome t :=
  match p with
  | [] => Raises IsADirectoryError
  | _ :: up =>
      match resolve fs up with
      | Found Dir =>
          match fs !! p with
          | Some Dir => Raises IsADirectoryError
          | _ => Returns (<[p := File]> fs)
          end
      | Found File => Raises NotADirectoryError
      | NotDir => Raises NotADirectoryError
      | Missing => Raises FileNotFoundError
      end
  end.

(** [files'] is [files] with directories added at [p] or above it and
    nothing else changed. *)
Definition grows (p : Path.t) (files files' : t) : Prop :=
  forall q,
    files' !! q = files !! q \/
    (q `suffix_of` p /\ files !! q = None /\ files' !! q = Some Dir).

(** No regular file stands at the path or above it. *)
Definition unobstructed (files : t) (p : Path.t) : Prop :=
  forall q, q `suffix_of` p -> files !! q <> Some File.

End FS.

(** ** The SKiDL object model, as far as the script drives it

    SKiDL keeps one process-wide circuit ([default_circuit]) to which every
    [Part(...)] and [Net(...)] adds itself and in which [+=] records pin
    membership.  A part is identified by its position in
    [default_circuit.parts], a net by its position in [default_circuit.nets],
    a pin by its part and the selector the script writes between the
    brackets.

    The library is not part of the repository; the calls below follow its
    documented behaviour for the cases the script exercises: every pin is
    attached once, and no two nets are joined. *)
Module Skidl.

Inductive drive := NONE | POWER | NOCONNECT.

Inductive tool := KICAD8.

(** [part[1]] or [part['K']]. *)
Inductive selector :=
| Num (n : nat)
| Name (s : string).

Record Pin := mkPin { pin_part : nat; pin_sel : selector }.

Record Part := mkPart {
  part_lib : string;
  part_name : string;
  part_value : string;
  part_footprint : string;
  part_ref : string
}.

Record Net := mkNet {
  net_name : string;
  net_drive : drive;
  net_pins : list Pin
}.

Record Circuit := mkCircuit {
  parts : list Part;
  nets : list Net
}.

(** What the symbol libraries and SKiDL's internals decide and the script
    only reads back: the reference given to a new part (from the references
    in use, the library and the part name), the number of a pin selected by
    name, the tail of the name given to a net created without one (from the
    names in use), the diagnostics of the electrical-rules check, and the
    order in which [net.pins] yields the pins of a net: the library keeps
    them in a set, so the order is the library's and differs from run to
    run; it always yields the pins attached, each once. *)
Record Library := mkLibrary {
  new_ref : list string -> string -> string -> string;
  pin_number : string -> string -> string -> string;
  implicit_tail : list string -> string;
  erc_rules : Circuit -> list string;
  pin_order : list Pin -> list Pin;
  pin_order_perm : forall ps, Permutation (pin_order ps) ps
}.

(** Prefix of the name of every net created without a name. *)
Definition NET_PREFIX : string := "N$".

Global Instance selector_eq_dec : EqDecision selector.
Proof. solve_decision. Defined.

Global Instance Pin_eq_dec : EqDecision Pin.
Proof. solve_decision. Defined.

Definition pin_eqb (p q : Pin) : bool := bool_decide (p = q).

(** The net that the library itself keeps for pins marked as not
    connected; it is the first net of every circuit. *)
Definition NC : Net := mkNet "__NOCONNECT" NOCONNECT [].

(** [default_circuit] as the library sets it up: no part, and the
    no-connect net. *)
Definition default_circuit : Circuit := mkCircuit [] [NC].

(** Declarations run in the state monad of the circuit. *)
Definition G (A : Type) : Type := Circuit -> A * Circuit.

Definition gret {A} (a : A) : G A := fun c => (a, c).

Definition gbind {A B} (m : G A) (k : A -> G B) : G B :=
  fun c => let '(a, c') := m c in k a c'.

(** [Net(name)]: a new net without pins joins the circuit; the call returns
    its handle. *)
Definition new_net (name : string) : G nat :=
  fun c => (length (nets c),
            mkCircuit (parts c) (nets c ++ [mkNet name NONE []])).

(** [net.drive = d]. *)
Definition set_drive (n : nat) (d : drive) : G unit :=
  fun c => (tt,
            mkCircuit (parts c)
              (alter (fun x => mkNet (net_name x) d (net_pins x)) n (nets c))).

(** [Part(lib, name, value=..., footprint=...)]. *)
Definition new_part (L : Library) (lib name value footprint : string) : G nat :=
  fun c => (length (parts c),
            mkCircuit
              (parts c ++ [mkPart lib name value footprint
                             (new_ref L (map part_ref (parts c)) lib name)])
              (nets c)).

(** The net a pin is on, if any ([pin.nets[0]]). *)
Fixpoint find_net (p : Pin) (ns : list Net) (i : nat) : option nat :=
  match ns with
  | [] => None
  | n :: rest =>
      if existsb (pin_eqb p) (net_pins n) then Some i
      else find_net p rest (S i)
  end.

Definition pin_net (c : Circuit) (p : Pin) : option nat := find_net p (nets c) 0.

(** [Net.connect] for one pin: the pin is appended to the pins of the net
    unless it is among them already. *)
Definition attach (n : nat) (p : Pin) : G unit :=
  fun c => (tt,
            mkCircuit (parts c)
              (alter (fun x =>
                        if existsb (pin_eqb p) (net_pins x) then x
                        else mkNet (net_name x) (net_drive x) (net_pins x ++ [p]))
                     n (nets c))).

(** What stands on the right of [+=]. *)
Inductive target :=
| TPin (p : Pin)
| TNet (n : nat).

(** [net += t]: a pin is attached to the net. *)
Definition net_iadd1 (n : nat) (t : target) : G unit :=
  match t with
  | TPin p => attach n p
  | TNet _ => gret tt
  end.

(** [pin += t] ([Pin.connect]): a net on the right takes the pin; a pin on
    the right joins the net of the left pin, or the left pin joins the net
    of the right one, or, when neither is on a net, a new net without a
    given name takes both. *)
Definition pin_iadd1 (L : Library) (p : Pin) (t : target) : G unit :=
  fun c =>
    match t with
    | TNet n => attach n p c
    | TPin q =>
        match pin_net c p, pin_net c q with
        | Some n, _ => attach n q c
        | None, Some n => attach n p c
        | None, None =>
            (tt, mkCircuit (parts c)
                   (nets c ++
                      [mkNet (NET_PREFIX +:+ implicit_tail L (map net_name (nets c)))
                         NONE [p; q]]))
        end
    end.

(** [x += t1, t2, ...]: the targets are connected one after the other. *)
Fixpoint iadd_all (step : target -> G unit) (ts : list target) : G unit :=
  match ts with
  | [] => gret tt
  | t :: rest => gbind (step t) (fun _ => iadd_all step rest)
  end.

(** Pins on the right of [+=]. *)
Definition pins (ps : list Pin) : list target := map TPin ps.

Definition net_iadd (n : nat) (ts : list target) : G unit :=
  iadd_all (net_iadd1 n) ts.

Definition pin_iadd (L : Library) (p : Pin) (ts : list target) : G unit :=
  iadd_all (pin_iadd1 L p) ts.

(** [p.num] and [p.part.ref], read in a circuit. *)
Definition pin_num (L : Library) (c : Circuit) (p : Pin) : string :=
  match pin_sel p with
  | Num n => NilZero.string_of_uint (Nat.to_uint n)
  | Name s =>
      match parts c !! pin_part p with
      | Some pt => pin_number L (part_lib pt) (part_name pt) s
      | None => ""
      end
  end.

Definition pin_ref (c : Circuit) (p : Pin) : string :=
  match parts c !! pin_part p with
  | Some pt => part_ref pt
  | None => ""
  end.

End Skidl.

(** ** The state of one Python process *)

(** Where the checkout lives and which interpreter runs it: the directory
    that holds the three files ([Path(__file__).parent] in each of them)
    and [sys.executable]. *)
Record Install := mkInstall {
  circuits_dir : Path.t;
  sys_executable : string
}.

Record Proc := mkProc {
  environ : gmap string string;          (* os.environ *)
  fs : FS.t;                             (* the file system *)
  sys_path : list string;                (* sys.path *)
  default_tool : option Skidl.tool;      (* SKiDL's default tool *)
  circuit : Skidl.Circuit;               (* default_circuit *)
  stdout : list string;                  (* one entry per print() *)
  stderr : list string;                  (* ERC diagnostics *)
  netlists : list (Path.t * Skidl.Circuit)  (* generate_netlist calls *)
}.

(** A process as the interpreter starts it: only the environment and the
    file system are inherited. *)
Definition fresh (env : gmap string string) (files : FS.t) : Proc :=
  mkProc env files [] None Skidl.default_circuit [] [] [].

(** Statements run in a state monad in which an exception stops the
    script and keeps the effects made so far. *)
Definition M (A : Type) : Type := Proc -> outcome A * Proc.

Class Monad (F : Type -> Type) := {
  ret : forall {A}, A -> F A;
  bind : forall {A B}, F A -> (A -> F B) -> F B
}.

Global Instance Monad_M : Monad M := {|
  ret A a := fun s => (Returns a, s);
  bind A B m k := fun s =>
    match m s with
    | (Returns a, s') => k a s'
    | (Raises e, s') => (Raises e, s')
    end
|}.

Global Instance Monad_G : Monad Skidl.G := {|
  ret A a := Skidl.gret a;
  bind A B m k := Skidl.gbind m k
|}.

Declare Scope py_scope.
Delimit Scope py_scope with py.
Notation "x <- m ;; k" := (bind m (fun x => k))
  (at level 100, m at next level, right associativity) : py_scope.
Notation "m ;; k" := (bind m (fun _ => k))
  (at level 100, right associativity) : py_scope.
Local Open Scope py_scope.

(** A declaration acts on [default_circuit] and cannot fail. *)
Definition on_circuit {A} (g : Skidl.G A) : M A :=
  fun s =>
    let '(a, c) := g (circuit s) in
    (Returns a,
     mkProc (environ s) (fs s) (sys_path s) (default_tool s) c
       (stdout s) (stderr s) (netlists s)).

(** [os.environ[k] = v]. *)
Definition setenv (k v : string) : M unit :=
  fun s =>
    (Returns tt,
     mkProc (<[k := v]> (environ s)) (fs s) (sys_path s) (default_tool s)
       (circuit s) (stdout s) (stderr s) (netlists s)).

(** A call that changes the file system or raises. *)
Definition on_fs (f : FS.t -> outcome FS.t) : M unit :=
  fun s =>
    match f (fs s) with
    | Returns files =>
        (Returns tt,
         mkProc (environ s) files (sys_path s) (default_tool s)
           (circuit s) (stdout s) (stderr s) (netlists s))
    | Raises e => (Raises e, s)
    end.

(** [sys.path.insert(0, d)]. *)
Definition sys_path_insert0 (d : string) : M unit :=
  fun s =>
    (Returns tt,
     mkProc (environ s) (fs s) (d :: sys_path s) (default_tool s)
       (circuit s) (stdout s) (stderr s) (netlists s)).

(** [set_default_tool(t)]. *)
Definition set_default_tool (t : Skidl.tool) : M unit :=
  fun s =>
    (Returns tt,
     mkProc (environ s) (fs s) (sys_path s) (Some t)
       (circuit s) (stdout s) (stderr s) (netlists s)).

(** [print(line)]. *)
Definition print (line : string) : M unit :=
  fun s =>
    (Returns tt,
     mkProc (environ s) (fs s) (sys_path s) (default_tool s)
       (circuit s) (stdout s ++ [line]) (stderr s) (netlists s)).

Fixpoint print_all (lines : list string) : M unit :=
  match lines with
  | [] => ret tt
  | l :: rest => print l ;; print_all rest
  end.

(** [ERC()]: the library checks [default_circuit] and reports what it
    finds; it neither raises nor exits on a violation.  (The report also
    goes to a file of the library's own, which the model leaves out.) *)
Definition ERC (L : Skidl.Library) : M unit :=
  fun s =>
    (Returns tt,
     mkProc (environ s) (fs s) (sys_path s) (default_tool s)
       (circuit s) (stdout s) (stderr s ++ Skidl.erc_rules L (circuit s))
       (netlists s)).

(** [generate_netlist(file_=str(p))]: the library serializes
    [default_circuit] and writes the text to the file.  The model records
    the call with the graph it is made on, and the file; the text, and the
    backup of the parts that the library keeps beside it, are left out. *)
Definition generate_netlist (p : Path.t) : M unit :=
  fun s =>
    match FS.write_file (fs s) p with
    | Returns files =>
        (Returns tt,
         mkProc (environ s) files (sys_path s) (default_tool s)
           (circuit s) (stdout s) (stderr s)
           (netlists s ++ [(p, circuit s)]))
    | Raises e => (Raises e, s)
    end.

(** The exit status of the interpreter: 0 when the script ran to its end,
    1 when an exception was not caught. *)
Definition exit_status {A} (r : outcome A) : Z :=
  match r with
  | Returns _ => 0
  | Raises _ => 1
  end.

(** [sorted(l, key=key)] on string keys: a stable sort by [<]. *)
Fixpoint insert_by {A} (key : A -> string) (x : A) (l : list A) : list A :=
  match l with
  | [] => [x]
  | y :: rest =>
      if String.leb (key x) (key y) then x :: l
      else y :: insert_by key x rest
  end.

Fixpoint sorted {A} (key : A -> string) (l : list A) : list A :=
  match l with
  | [] => []
  | x :: rest => insert_by key x (sorted key rest)
  end.

(** [a] may stand before [b] in a list sorted by [key]. *)
Definition key_le {A} (key : A -> string) (a b : A) : Prop :=
  String.leb (key a) (key b) = true.

(** [str(n)] for a length. *)
Definition str_of_nat (n : nat) : string := NilZero.string_of_uint (Nat.to_uint n).

(** ** [circuits/__init__.py] *)
Module Circuits.
Section Package.

Variable I : Install.

(** [__file__] of the package. *)
Definition file_ : Path.t := circuits_dir I // "__init__.py".

Definition PROJECT_ROOT : Path.t := Path.parent (Path.parent file_).

Definition OUTPUT_DIR : Path.t :=
  PROJECT_ROOT // "kicad" // "trace-eurorack-module" // "netlists".

Definition KICAD_SYMBOLS : string :=
  "/Applications/KiCad/KiCad.app/Contents/SharedSupport/symbols".

Definition KICAD_FOOTPRINTS : string :=
  "/Applications/KiCad/KiCad.app/Contents/SharedSupport/footprints".

Definition init_skidl : M unit :=
  setenv "KICAD8_SYMBOL_DIR" KICAD_SYMBOLS ;;
  setenv "KICAD8_FOOTPRINT_DIR" KICAD_FOOTPRINTS ;;
  (* OUTPUT_DIR.mkdir(parents=True, exist_ok=True) *)
  on_fs (fun files => FS.mkdir_parents true files OUTPUT_DIR) ;;
  (* from skidl import set_default_tool, KICAD8: the import opens the log
     files of the library, which the model leaves out *)
  set_default_tool Skidl.KICAD8.

End Package.
End Circuits.

(** ** [circuits/power_supply.py] *)
Module PowerSupply.
Import Skidl.
Section Script.

Variable I : Install.
Variable L : Library.

Definition file_ : Path.t := circuits_dir I // "power_supply.py".

Definition PROJECT_ROOT : Path.t := Path.parent (Path.parent file_).

(** [part[n]] and [part['name']]. *)
Definition pn (part n : nat) : Pin := mkPin part (Num n).
Definition pin (part : nat) (name : string) : Pin := mkPin part (Name name).

(** The nets, the components and the connections, in the order of the
    file. *)
Definition declarations : G unit :=
  plus_12v <- new_net "+12V" ;;
  minus_12v <- new_net "-12V" ;;
  gnd <- new_net "GND" ;;
  plus_3v3 <- new_net "+3.3V" ;;
  sw_node <- new_net "SW" ;;
  set_drive plus_12v POWER ;;
  set_drive gnd POWER ;;
  set_drive minus_12v POWER ;;
  set_drive plus_3v3 POWER ;;
  j1 <- new_part L "Connector_Generic" "Conn_02x05_Odd_Even"
          "Eurorack_Power" "Connector_IDC:IDC-Header_2x05_P2.54mm_Vertical" ;;
  d1 <- new_part L "Device" "D_Schottky" "SS14" "Diode_SMD:D_SMA" ;;
  u1 <- new_part L "Regulator_Switching" "AP63203WU"
          "AP63203WU-7" "Package_TO_SOT_SMD:TSOT-23-6" ;;
  c1 <- new_part L "Device" "C" "10uF" "Capacitor_SMD:C_0805_2012Metric" ;;
  c2 <- new_part L "Device" "C" "22uF" "Capacitor_SMD:C_0805_2012Metric" ;;
  c3 <- new_part L "Device" "C" "100nF" "Capacitor_SMD:C_0402_1005Metric" ;;
  l1 <- new_part L "Device" "L" "10uH" "Inductor_SMD:L_1210_3225Metric" ;;
  pin_iadd L (pn j1 1) (pins [pin d1 "K"]) ;;
  pin_iadd L (pin d1 "A") [TNet minus_12v] ;;
  net_iadd plus_12v
    (pins [pn j1 9; pn j1 10; pn c1 1; pin u1 "IN"; pin u1 "EN"]) ;;
  net_iadd gnd
    (pins [pn j1 2; pn j1 3; pn j1 4; pn j1 5; pn j1 6; pn j1 7; pn j1 8]) ;;
  net_iadd gnd (pins [pn c1 2; pin u1 "GND"; pn c2 2]) ;;
  pin_iadd L (pin u1 "SW") (TNet sw_node :: pins [pn c3 1; pn l1 1]) ;;
  pin_iadd L (pin u1 "BST") (pins [pn c3 2]) ;;
  pin_iadd L (pn l1 2) [TNet plus_3v3] ;;
  net_iadd plus_3v3 (pins [pn c2 1; pin u1 "FB"]).

(** The summary that follows the rules check. *)
Definition part_line (p : Part) : string :=
  "  " +:+ part_ref p +:+ ": " +:+ part_value p
    +:+ " (" +:+ part_footprint p +:+ ")".

Definition listed_parts (c : Circuit) : list Part :=
  sorted part_ref (parts c).

(** The test of the [if] in the loop over the nets. *)
Definition shown (n : Net) : bool :=
  str_truthy (net_name n) && negb (startswith (net_name n) "N$").

Definition listed_nets (c : Circuit) : list Net :=
  List.filter shown (sorted net_name (nets c)).

Definition pin_text (c : Circuit) (p : Pin) : string :=
  pin_ref c p +:+ "." +:+ pin_num L c p.

Definition net_line (c : Circuit) (n : Net) : string :=
  "  " +:+ net_name n +:+ ": "
    +:+ str_join ", " (map (pin_text c) (pin_order L (net_pins n))).

Definition summary (c : Circuit) : list string :=
  [nl +:+ str_mul "=" 60;
   "Circuit Summary";
   str_mul "=" 60;
   "Total Parts: " +:+ str_of_nat (length (parts c));
   "Total Nets: " +:+ str_of_nat (length (nets c));
   nl +:+ "Parts List:"]
  ++ map part_line (listed_parts c)
  ++ [nl +:+ "Net Connections:"]
  ++ map (net_line c) (listed_nets c).

Definition netlist_path : Path.t :=
  Circuits.OUTPUT_DIR I // "power_supply.net".

(** The lines on the console up to the call of [generate_netlist]. *)
Definition console (c : Circuit) : list string :=
  [str_mul "=" 60; "Trace Eurorack Module - Power Supply"; str_mul "=" 60]
  ++ summary c
  ++ [nl +:+ str_mul "=" 60; "Generating netlist..."; str_mul "=" 60].

(** The whole file, top to bottom.  The two imports bind names; the files
    that the interpreter and the library write while importing are left
    out, and the calls of the library are taken to return. *)
Definition script : M unit :=
  sys_path_insert0 (Path.str PROJECT_ROOT) ;;
  Circuits.init_skidl I ;;
  on_circuit declarations ;;
  print (str_mul "=" 60) ;;
  print "Trace Eurorack Module - Power Supply" ;;
  print (str_mul "=" 60) ;;
  ERC L ;;
  c <- on_circuit (fun c => (c, c)) ;;
  print_all (summary c) ;;
  print (nl +:+ str_mul "=" 60) ;;
  print "Generating netlist..." ;;
  print (str_mul "=" 60) ;;
  generate_netlist netlist_path ;;
  print ("Netlist written to: " +:+ Path.str netlist_path).

(** One run of [python power_supply.py]: the exit status and the state
    the process leaves behind. *)
Definition run (env : gmap string string) (files : FS.t) : Z * Proc :=
  let '(r, s) := script (fresh env files) in (exit_status r, s).

(** The graph that the declarations build in a new process. *)
Definition graph : Circuit := snd (declarations default_circuit).

End Script.
End PowerSupply.

(** ** [circuits/build.py] *)
Module Build.

(** What the orchestrator does to the world around it, in order: a line
    on the console, a test whether a file exists (with its answer), a
    child process run to its end (with its arguments, its working
    directory and its exit code). *)
Inductive event :=
| EPrint (line : string)
| EExists (p : Path.t) (found : bool)
| ERun (argv : list string) (cwd : Path.t) (returncode : Z).

Section Orchestrator.

Variable I : Install.

(** The world outside the orchestrator: what [Path.exists] answers in it,
    and what [subprocess.run] makes of it - the call returns only when the
    child has ended, with the exit code of the child and the world the
    child leaves behind. *)
Variable World : Type.
Variable path_exists : World -> Path.t -> bool.
Variable subprocess_run : list string -> Path.t -> World -> Z * World.

Definition file_ : Path.t := circuits_dir I // "build.py".

Definition CIRCUITS_DIR : Path.t := Path.parent file_.

Definition CIRCUITS : list string := ["power_supply"].

Definition module_path (name : string) : Path.t :=
  CIRCUITS_DIR // (name +:+ ".py").

Definition build_circuit (name : string) (w : World)
  : bool * list event * World :=
  let found := path_exists w (module_path name) in
  if negb found then
    (true,
     [EExists (module_path name) found;
      EPrint ("SKIP: " +:+ name +:+ ".py not found")],
     w)
  else
    let argv := [sys_executable I; Path.str (module_path name)] in
    let cwd := Path.parent CIRCUITS_DIR in
    let '(returncode, w') := subprocess_run argv cwd w in
    let before :=
      [EExists (module_path name) found;
       EPrint (nl +:+ str_mul "=" 60);
       EPrint ("Building: " +:+ name);
       EPrint (str_mul "=" 60);
       ERun argv cwd returncode] in
    if negb (returncode =? 0)%Z then
      (false, before ++ [EPrint ("FAILED: " +:+ name)], w')
    else
      (true, before, w').

(** The [for] loop of [main], with the flag [success] it carries. *)
Fixpoint build_all (circuits : list string) (success : bool) (w : World)
  : bool * list event * World :=
  match circuits with
  | [] => (success, [], w)
  | circuit :: rest =>
      let '(ok, ev, w') := build_circuit circuit w in
      let success' := if negb ok then false else success in
      let '(result, ev', w'') := build_all rest success' w' in
      (result, ev ++ ev', w'')
  end.

(** [main] over a list of circuits; the first component is the exit
    status of the process: [sys.exit(1)] after a failure, 0 when [main]
    returns. *)
Definition main_on (circuits : list string) (w : World)
  : Z * list event * World :=
  let '(success, ev, w') := build_all circuits true w in
  let head :=
    [EPrint "Trace Eurorack Module - Circuit Build"; EPrint (str_mul "=" 60)]
    ++ ev ++ [EPrint (nl +:+ str_mul "=" 60)] in
  if success then
    (0%Z,
     head ++ [EPrint "BUILD COMPLETE - All circuits generated successfully"],
     w')
  else
    (1%Z, head ++ [EPrint "BUILD FAILED - See errors above"], w').

Definition main : World -> Z * list event * World := main_on CIRCUITS.

End Orchestrator.

(** Readings of a trace. *)

(** The files tested, in order. *)
Fixpoint probed (tr : list event) : list Path.t :=
  match tr with
  | [] => []
  | EExists p _ :: rest => p :: probed rest
  | _ :: rest => probed rest
  end.

(** The files tested and found, in order. *)
Fixpoint found_files (tr : list event) : list Path.t :=
  match tr with
  | [] => []
  | EExists p true :: rest => p :: found_files rest
  | _ :: rest => found_files rest
  end.

(** The child processes run, in order. *)
Fixpoint runs (tr : list event) : list (list string * Path.t * Z) :=
  match tr with
  | [] => []
  | ERun argv cwd rc :: rest => (argv, cwd, rc) :: runs rest
  | _ :: rest => runs rest
  end.

(** The lines printed, in order. *)
Fixpoint printed (tr : list event) : list string :=
  match tr with
  | [] => []
  | EPrint line :: rest => line :: printed rest
  | _ :: rest => printed rest
  end.

End Build.

(** ** Readings of what the orchestrator did *)
Module BuildSpec.
Import Build.

(** A process that was run is the interpreter on the file of one of the
    circuits, in the project root. *)
Definition configured_run (I : Install) (circuits : list string)
    (r : list string * Path.t * Z) : Prop :=
  snd (fst r) = Path.parent (circuits_dir I) /\
  exists name,
    In name circuits /\
    fst (fst r) = [sys_executable I; Path.str (circuits_dir I // (name +:+ ".py"))].

(** What the step of a circuit without a file leaves in the trace. *)
Definition skip_events (I : Install) (name : string) : list event :=
  [EExists (circuits_dir I // (name +:+ ".py")) false;
   EPrint ("SKIP: " +:+ name +:+ ".py not found")].

(** The lines that report a failed circuit, and the children that
    returned a code other than 0. *)
Definition failed_lines (tr : list event) : list string :=
  List.filter (String.prefix "FAILED: ") (printed tr).

Definition failed_runs (tr : list event) : list (list string * Path.t * Z) :=
  List.filter (fun r => negb (snd r =? 0)%Z) (runs tr).

(** The calls on the world in a trace: what is left when the lines on the
    console are taken out. *)
Fixpoint calls (tr : list event) : list event :=
  match tr with
  | [] => []
  | EPrint _ :: rest => calls rest
  | e :: rest => e :: calls rest
  end.

Section Expected.

Variable I : Install.
Variable World : Type.
Variable path_exists : World -> Path.t -> bool.
Variable subprocess_run : list string -> Path.t -> World -> Z * World.

(** The orchestrator as the specification words it, written without the
    code: for each name in turn, the file [<name>.py] of the circuits
    directory is looked for; when it is there, the interpreter is run on it
    from the project root and awaited, whatever the earlier steps
    returned; the next name starts from the world this leaves. The result
    is the calls on the world, in order, and the world at the end. *)
Fixpoint expected (circuits : list string) (w : World) : list event * World :=
  match circuits with
  | [] => ([], w)
  | name :: rest =>
      let file := circuits_dir I // (name +:+ ".py") in
      let argv := [sys_executable I; Path.str file] in
      let root := Path.parent (circuits_dir I) in
      if path_exists w file then
        let '(rc, w1) := subprocess_run argv root w in
        let '(later, w2) := expected rest w1 in
        (EExists file true :: ERun argv root rc :: later, w2)
      else
        let '(later, w2) := expected rest w in
        (EExists file false :: later, w2)
  end.

End Expected.

End BuildSpec.

(** ** A sample installation

    A checkout under [/home/dev/trace-eurorack-module], a symbol library
    that numbers references per prefix, and a world made of a file system
    in which the interpreter, given any script, runs the power-supply
    definition.  The examples below are evaluated on it. *)
Module Sample.

Definition install : Install :=
  mkInstall ["circuits"; "trace-eurorack-module"; "dev"; "home"]
    "/usr/bin/python3".

Definition prefix_of (name : string) : string :=
  if String.eqb name "C" then "C"
  else if String.eqb name "L" then "L"
  else if String.eqb name "D_Schottky" then "D"
  else if String.eqb name "AP63203WU" then "U"
  else "J".

Definition count_prefix (pre : string) (used : list string) : nat :=
  length (List.filter (String.prefix pre) used).

(** A rules check that finds nothing, and one that finds a violation on
    every circuit. *)
Definition library (violations : list string) : Skidl.Library :=
  Skidl.mkLibrary
    (fun used _ name =>
       prefix_of name +:+ str_of_nat (S (count_prefix (prefix_of name) used)))
    (fun _ _ pin_name => pin_name)
    (fun used => str_of_nat (S (count_prefix Skidl.NET_PREFIX used)))
    (fun _ => violations)
    (fun ps => ps)
    (fun ps => Permutation_refl ps).

Definition clean : Skidl.Library := library [].

Definition faulty : Skidl.Library :=
  library ["ERC ERROR: Unconnected pin: INPUT pin 2/EN of AP63203WU/U1."].

(** A checkout with the two scripts and nothing built yet. *)
Definition checkout : FS.t :=
  <[ ["power_supply.py"; "circuits"; "trace-eurorack-module"; "dev"; "home"] := FS.File ]>
  (<[ ["build.py"; "circuits"; "trace-eurorack-module"; "dev"; "home"] := FS.File ]>
  (<[ ["circuits"; "trace-eurorack-module"; "dev"; "home"] := FS.Dir ]>
  (<[ ["trace-eurorack-module"; "dev"; "home"] := FS.Dir ]>
  (<[ ["dev"; "home"] := FS.Dir ]>
  (<[ ["home"] := FS.Dir ]> ∅))))).

(** The same checkout with a regular file where the [kicad] directory
    should be. *)
Definition blocked : FS.t :=
  <[ ["kicad"; "trace-eurorack-module"; "dev"; "home"] := FS.File ]> checkout.

Definition path_exists (w : FS.t) (p : Path.t) : bool := FS.exists_ w p.

Definition subprocess_run (argv : list string) (cwd : Path.t) (w : FS.t) : Z * FS.t :=
  let '(code, s) := PowerSupply.run install clean ∅ w in (code, fs s).

End Sample.

(** ** Further sample file systems *)
Module Sample2.



(** Two circuits with the parts and the nets of the sample graph, the
    second with both lists reversed. *)
Definition declared : Skidl.Circuit := PowerSupply.graph Sample.clean.

Definition reversed : Skidl.Circuit :=
  Skidl.mkCircuit (rev (Skidl.parts declared)) (rev (Skidl.nets declared)).

End Sample2.

(** * Properties *)

(** ** The file system *)
Module FSFacts.
Import FS.

Lemma resolve_insert_longer (files : FS.t) (p q : Path.t) (k : kind) :
  length q < length p ->
  resolve (<[p := k]> files) q = resolve files q.
Proof.
  induction q as [|a q IH]; intros Hlen; [reflexivity|].
  simpl in Hlen. simpl. rewrite IH by lia.
  rewrite lookup_insert_ne; [reflexivity|].
  intros ->. simpl in Hlen. lia.
Qed.

Lemma resolve_insert_here (files : FS.t) (a : string) (up : Path.t) (k : kind) :
  resolve files up = Found Dir ->
  resolve (<[a :: up := k]> files) (a :: up) = Found k.
Proof.
  intros Hup. cbn [resolve].
  rewrite resolve_insert_longer by (simpl; lia).
  rewrite Hup. now rewrite lookup_insert_eq.
Qed.

(** A directory is reached through directories only. *)
Lemma is_dir_parent (files : FS.t) (a : string) (up : Path.t) :
  is_dir files (a :: up) = true -> is_dir files up = true.
Proof.
  unfold is_dir. cbn [resolve].
  destruct (resolve files up) as [[]| |]; try discriminate. reflexivity.
Qed.

Lemma is_dir_suffix (files : FS.t) (p q : Path.t) :
  q `suffix_of` p -> is_dir files p = true -> is_dir files q = true.
Proof.
  intros [k ->]. induction k as [|a k IH]; [trivial|].
  intros H. apply IH. exact (is_dir_parent _ _ _ H).
Qed.

Lemma os_mkdir_returns (files files' : FS.t) (p : Path.t) :
  os_mkdir files p = Returns files' ->
  files !! p = None /\ files' = <[p := Dir]> files /\ is_dir files' p = true.
Proof.
  destruct p as [|a up]; [discriminate|]. unfold os_mkdir.
  destruct (resolve files up) as [[]| |] eqn:Hup; try discriminate.
  destruct (files !! (a :: up)) eqn:Hp; [discriminate|].
  intros [= <-]. repeat split.
  unfold is_dir. now rewrite resolve_insert_here.
Qed.

(** With [exist_ok] a call that returns leaves a directory behind. *)
Lemma mkdir1_is_dir (files files' : FS.t) (p : Path.t) :
  mkdir1 true files p = Returns files' -> is_dir files' p = true.
Proof.
  unfold mkdir1. destruct (os_mkdir files p) as [f|e] eqn:Hos.
  - intros [= <-]. now apply os_mkdir_returns in Hos.
  - destruct e; try discriminate; simpl;
      destruct (is_dir files p) eqn:Hd; try discriminate; now intros [= <-].
Qed.

Lemma mkdir_parents_is_dir (files files' : FS.t) (p : Path.t) :
  mkdir_parents true files p = Returns files' -> is_dir files' p = true.
Proof.
  destruct p as [|a up]; cbn [mkdir_parents].
  - simpl. now intros [= <-].
  - destruct (os_mkdir files (a :: up)) as [f|e] eqn:Hos.
    + intros [= <-]. now apply os_mkdir_returns in Hos.
    + destruct e; simpl.
      * destruct (is_dir files (a :: up)) eqn:Hd; try discriminate.
        now intros [= <-].
      * destruct (mkdir_parents true files up); [|discriminate].
        apply mkdir1_is_dir.
      * destruct (is_dir files (a :: up)) eqn:Hd; try discriminate.
        now intros [= <-].
      * destruct (is_dir files (a :: up)) eqn:Hd; try discriminate.
        now intros [= <-].
Qed.

(** Making directories adds directories and changes nothing else. *)
Lemma grows_refl (p : Path.t) (files : FS.t) : grows p files files.
Proof. intros q. now left. Qed.

Lemma grows_trans (p : Path.t) (f1 f2 f3 : FS.t) :
  grows p f1 f2 -> grows p f2 f3 -> grows p f1 f3.
Proof.
  intros H12 H23 q.
  destruct (H12 q) as [E1|(S1 & E1 & E1')], (H23 q) as [E2|(S2 & E2 & E2')].
  - left. congruence.
  - right. repeat split; congruence.
  - right. repeat split; congruence.
  - congruence.
Qed.

Lemma grows_parent (a : string) (up : Path.t) (f1 f2 : FS.t) :
  grows up f1 f2 -> grows (a :: up) f1 f2.
Proof.
  intros H q. destruct (H q) as [E|(S & E & E')]; [now left|right].
  repeat split; trivial. now apply suffix_cons_r.
Qed.

Lemma os_mkdir_grows (files files' : FS.t) (p : Path.t) :
  os_mkdir files p = Returns files' -> grows p files files'.
Proof.
  intros H. apply os_mkdir_returns in H as (Hnone & -> & _). intros q.
  destruct (decide (p = q)) as [<-|Hne].
  - right. now rewrite lookup_insert_eq.
  - left. now rewrite lookup_insert_ne.
Qed.

Lemma mkdir1_grows (e : bool) (files files' : FS.t) (p : Path.t) :
  mkdir1 e files p = Returns files' -> grows p files files'.
Proof.
  unfold mkdir1. destruct (os_mkdir files p) as [f|x] eqn:Hos.
  - intros [= <-]. now apply os_mkdir_grows in Hos.
  - destruct x; try discriminate;
      destruct (e && is_dir files p); try discriminate;
      intros [= <-]; apply grows_refl.
Qed.

Lemma mkdir_parents_grows (e : bool) (files files' : FS.t) (p : Path.t) :
  mkdir_parents e files p = Returns files' -> grows p files files'.
Proof.
  revert e files files'. induction p as [|a up IH]; intros e files files'.
  - simpl. destruct (e && is_dir files []); try discriminate.
    intros [= <-]. apply grows_refl.
  - cbn [mkdir_parents].
    destruct (os_mkdir files (a :: up)) as [f|x] eqn:Hos.
    + intros [= <-]. now apply os_mkdir_grows in Hos.
    + destruct x;
        try (destruct (e && is_dir files (a :: up)); try discriminate;
             intros [= <-]; apply grows_refl).
      destruct (mkdir_parents true files up) as [f1|] eqn:Hup; [|discriminate].
      intros H1. eapply grows_trans; [exact (grows_parent _ _ _ _ (IH _ _ _ Hup))|].
      exact (mkdir1_grows _ _ _ _ H1).
Qed.

Lemma unobstructed_parent (files : FS.t) (a : string) (up : Path.t) :
  unobstructed files (a :: up) -> unobstructed files up.
Proof. intros H q Hq. apply H. now apply suffix_cons_r. Qed.

Lemma unobstructed_grows (files files' : FS.t) (p p' : Path.t) :
  grows p' files files' -> unobstructed files p -> unobstructed files' p.
Proof.
  intros Hg H q Hq.
  destruct (Hg q) as [E|(_ & _ & E)]; rewrite E; [now apply H|discriminate].
Qed.

(** The regular files are the same before and after. *)
Lemma grows_files (files files' : FS.t) (p q : Path.t) :
  grows p files files' -> files' !! q = Some File <-> files !! q = Some File.
Proof.
  intros Hg. destruct (Hg q) as [E|(_ & E & E')]; rewrite E; [reflexivity|].
  rewrite E'. split; discriminate.
Qed.

Lemma unobstructed_resolve (files : FS.t) (p : Path.t) :
  unobstructed files p ->
  resolve files p = Found Dir \/ resolve files p = Missing.
Proof.
  induction p as [|a up IH]; intros H; [now left|].
  cbn [resolve]. destruct (IH (unobstructed_parent _ _ _ H)) as [->| ->]; [|now right].
  destruct (files !! (a :: up)) as [[]|] eqn:Hp; auto.
  exfalso. now apply (H (a :: up)).
Qed.

(** [mkdir(parents=True, exist_ok=True)] returns wherever no regular file
    is in the way. *)
Lemma mkdir_parents_returns (files : FS.t) (p : Path.t) :
  unobstructed files p -> exists files', mkdir_parents true files p = Returns files'.
Proof.
  revert files. induction p as [|a up IH]; intros files H.
  - exists files. reflexivity.
  - pose proof (unobstructed_parent _ _ _ H) as Hup.
    cbn [mkdir_parents]. unfold os_mkdir.
    destruct (unobstructed_resolve _ _ Hup) as [E|E]; rewrite E.
    + destruct (files !! (a :: up)) as [k|] eqn:Hp; [|eauto].
      destruct k; [|exfalso; now apply (H (a :: up))].
      unfold is_dir. cbn [resolve]. rewrite E, Hp. simpl. eauto.
    + destruct (IH _ Hup) as [f1 Hf1]. rewrite Hf1.
      pose proof (mkdir_parents_is_dir _ _ _ Hf1) as Hd.
      pose proof (unobstructed_grows _ _ _ _ (mkdir_parents_grows _ _ _ _ Hf1) H) as H1.
      unfold mkdir1, os_mkdir. unfold is_dir in Hd.
      destruct (resolve f1 up) as [[]| |] eqn:E1; try discriminate.
      destruct (f1 !! (a :: up)) as [k|] eqn:Hp; [|eauto].
      destruct k; [|exfalso; now apply (H1 (a :: up))].
      unfold is_dir. cbn [resolve]. rewrite E1, Hp. simpl. eauto.
Qed.

(** On a directory that exists the call returns and changes nothing. *)
Lemma mkdir_parents_existing (files : FS.t) (p : Path.t) :
  is_dir files p = true -> mkdir_parents true files p = Returns files.
Proof.
  intros Hd. destruct p as [|a up]; [reflexivity|].
  cbn [mkdir_parents]. unfold os_mkdir. pose proof Hd as Hd'.
  unfold is_dir in Hd'. cbn [resolve] in Hd'.
  destruct (resolve files up) as [[]| |]; try discriminate.
  destruct (files !! (a :: up)) as [k|]; [|discriminate].
  simpl. now rewrite Hd.
Qed.

End FSFacts.

(** ** [init_skidl] *)
Section InitSkidl.

Variable I : Install.

(** The call, spelled out: both variables are set, then the directory is
    made, then the tool is chosen; an exception of [mkdir] leaves the
    variables set. *)
Lemma init_skidl_unfold (s : Proc) :
  Circuits.init_skidl I s =
  let env :=
    <["KICAD8_FOOTPRINT_DIR" := Circuits.KICAD_FOOTPRINTS]>
      (<["KICAD8_SYMBOL_DIR" := Circuits.KICAD_SYMBOLS]> (environ s)) in
  match FS.mkdir_parents true (fs s) (Circuits.OUTPUT_DIR I) with
  | Returns files =>
      (Returns tt,
       mkProc env files (sys_path s) (Some Skidl.KICAD8) (circuit s)
         (stdout s) (stderr s) (netlists s))
  | Raises e =>
      (Raises e,
       mkProc env (fs s) (sys_path s) (default_tool s) (circuit s)
         (stdout s) (stderr s) (netlists s))
  end.
Proof.
  unfold Circuits.init_skidl, bind, Monad_M, setenv, on_fs, set_default_tool.
  cbn [fs environ sys_path default_tool circuit stdout stderr netlists].
  destruct (FS.mkdir_parents true (fs s) (Circuits.OUTPUT_DIR I)); reflexivity.
Qed.

Lemma init_skidl_environ (s : Proc) :
  environ (snd (Circuits.init_skidl I s)) =
  <["KICAD8_FOOTPRINT_DIR" := Circuits.KICAD_FOOTPRINTS]>
    (<["KICAD8_SYMBOL_DIR" := Circuits.KICAD_SYMBOLS]> (environ s)).
Proof.
  rewrite init_skidl_unfold. cbv zeta.
  destruct (FS.mkdir_parents true (fs s) (Circuits.OUTPUT_DIR I)); reflexivity.
Qed.

Lemma init_skidl_returns (s : Proc) :
  fst (Circuits.init_skidl I s) = Returns tt <->
  exists files, FS.mkdir_parents true (fs s) (Circuits.OUTPUT_DIR I) = Returns files.
Proof.
  rewrite init_skidl_unfold. cbv zeta.
  destruct (FS.mkdir_parents true (fs s) (Circuits.OUTPUT_DIR I)) as [f|e]; simpl.
  - split; eauto.
  - split; [discriminate|]. intros [f Hf]. discriminate.
Qed.

Lemma init_skidl_fs (s : Proc) (files : FS.t) :
  FS.mkdir_parents true (fs s) (Circuits.OUTPUT_DIR I) = Returns files ->
  fs (snd (Circuits.init_skidl I s)) = files.
Proof. intros H. rewrite init_skidl_unfold. cbv zeta. now rewrite H. Qed.

End InitSkidl.

(** C9: [init_skidl] sets both KiCad variables on every call; when it
    returns, the netlist directory and every directory above it exist; it
    returns whenever no regular file stands in the way, creating what is
    missing; on a directory that exists already it returns without error
    and the directory is still there; and a second call after a call that
    returned returns too and changes nothing. *)
Theorem init_skidl_output_dir (I : Install) (s : Proc) :
  let out := Circuits.OUTPUT_DIR I in
  let r := fst (Circuits.init_skidl I s) in
  let s' := snd (Circuits.init_skidl I s) in
  (environ s' !! "KICAD8_SYMBOL_DIR" = Some Circuits.KICAD_SYMBOLS /\
   environ s' !! "KICAD8_FOOTPRINT_DIR" = Some Circuits.KICAD_FOOTPRINTS) /\
  (r = Returns tt ->
   forall q, q `suffix_of` out -> FS.is_dir (fs s') q = true) /\
  (FS.unobstructed (fs s) out -> r = Returns tt) /\
  (FS.is_dir (fs s) out = true ->
   r = Returns tt /\ FS.is_dir (fs s') out = true) /\
  (r = Returns tt -> Circuits.init_skidl I s' = (Returns tt, s')).
Proof.
  intros out r s'. subst r s'. repeat split.
  - rewrite init_skidl_environ.
    rewrite lookup_insert_ne by discriminate. apply lookup_insert_eq.
  - rewrite init_skidl_environ. apply lookup_insert_eq.
  - intros Hr q Hq. apply init_skidl_returns in Hr as [f Hf].
    rewrite (init_skidl_fs _ _ _ Hf).
    eapply FSFacts.is_dir_suffix; [exact Hq|].
    exact (FSFacts.mkdir_parents_is_dir _ _ _ Hf).
  - intros Hfree. apply init_skidl_returns.
    now apply FSFacts.mkdir_parents_returns.
  - apply init_skidl_returns. exists (fs s).
    now apply FSFacts.mkdir_parents_existing.
  - rewrite (init_skidl_fs I s (fs s)); [assumption|].
    now apply FSFacts.mkdir_parents_existing.
  - intros Hr. apply init_skidl_returns in Hr as [f Hf].
    pose proof (FSFacts.mkdir_parents_is_dir _ _ _ Hf) as Hd.
    rewrite (init_skidl_unfold I s). cbv zeta. rewrite Hf. cbn [snd].
    rewrite init_skidl_unfold. cbv zeta.
    cbn [fs environ sys_path default_tool circuit stdout stderr netlists].
    rewrite (FSFacts.mkdir_parents_existing _ _ Hd).
    f_equal. f_equal.
    rewrite (insert_id _ "KICAD8_SYMBOL_DIR" Circuits.KICAD_SYMBOLS).
    + apply insert_id. apply lookup_insert_eq.
    + rewrite lookup_insert_ne by discriminate. apply lookup_insert_eq.
Qed.

(** ** The orchestrator *)
Module BuildFacts.
Import Build.

Lemma probed_app (t1 t2 : list event) : probed (t1 ++ t2) = probed t1 ++ probed t2.
Proof.
  induction t1 as [|[] t1 IH]; simpl; [reflexivity| | |]; now rewrite ?IH.
Qed.

Lemma found_files_app (t1 t2 : list event) :
  found_files (t1 ++ t2) = found_files t1 ++ found_files t2.
Proof.
  induction t1 as [|[| p [] |] t1 IH]; simpl; [reflexivity| | | |]; now rewrite ?IH.
Qed.

Lemma runs_app (t1 t2 : list event) : runs (t1 ++ t2) = runs t1 ++ runs t2.
Proof.
  induction t1 as [|[] t1 IH]; simpl; [reflexivity| | |]; now rewrite ?IH.
Qed.

Lemma printed_app (t1 t2 : list event) : printed (t1 ++ t2) = printed t1 ++ printed t2.
Proof.
  induction t1 as [|[] t1 IH]; simpl; [reflexivity| | |]; now rewrite ?IH.
Qed.

Section Orchestrator.

Variable I : Install.
Variable World : Type.
Variable path_exists : World -> Path.t -> bool.
Variable subprocess_run : list string -> Path.t -> World -> Z * World.

Local Abbreviation build_circuit := (build_circuit I World path_exists subprocess_run).
Local Abbreviation build_all := (build_all I World path_exists subprocess_run).
Local Abbreviation main_on := (main_on I World path_exists subprocess_run).
Local Abbreviation argv_of name := [sys_executable I; Path.str (module_path I name)].
Local Abbreviation cwd := (Path.parent (CIRCUITS_DIR I)).

(** The step for a file that is not there. *)
Lemma build_circuit_absent (name : string) (w : World) :
  path_exists w (module_path I name) = false ->
  build_circuit name w =
    (true,
     [EExists (module_path I name) false;
      EPrint ("SKIP: " +:+ name +:+ ".py not found")],
     w).
Proof. intros H. unfold Build.build_circuit. now rewrite H. Qed.

(** The step for a file that is there. *)
Lemma build_circuit_present (name : string) (w : World) :
  path_exists w (module_path I name) = true ->
  build_circuit name w =
    let rc := fst (subprocess_run (argv_of name) cwd w) in
    ((rc =? 0)%Z,
     [EExists (module_path I name) true;
      EPrint (nl +:+ str_mul "=" 60);
      EPrint ("Building: " +:+ name);
      EPrint (str_mul "=" 60);
      ERun (argv_of name) cwd rc]
     ++ (if (rc =? 0)%Z then [] else [EPrint ("FAILED: " +:+ name)]),
     snd (subprocess_run (argv_of name) cwd w)).
Proof.
  intros H. unfold Build.build_circuit. rewrite H. cbn [negb].
  destruct (subprocess_run (argv_of name) cwd w) as [rc w']. cbn [fst snd].
  destruct (rc =? 0)%Z; reflexivity.
Qed.

(** What one step leaves in the trace. *)
Lemma build_circuit_trace (name : string) (w : World) :
  let '(ok, tr, _) := build_circuit name w in
  probed tr = [module_path I name] /\
  map (fun r => fst (fst r)) (runs tr)
    = map (fun p => [sys_executable I; Path.str p]) (found_files tr) /\
  ok = forallb (fun r => (snd r =? 0)%Z) (runs tr).
Proof.
  destruct (path_exists w (module_path I name)) eqn:H.
  - rewrite (build_circuit_present _ _ H). cbv zeta.
    destruct (fst (subprocess_run (argv_of name) cwd w) =? 0)%Z eqn:Hrc;
      simpl; rewrite Hrc; auto.
  - rewrite (build_circuit_absent _ _ H). simpl. auto.
Qed.

(** The loop runs through the whole list: a list in two pieces is built
    piece after piece, the second from the world and with the flag that
    the first leaves, whatever that flag is. *)
Lemma build_all_app (pre post : list string) (success : bool) (w : World) :
  build_all (pre ++ post) success w =
    let '(s1, t1, w1) := build_all pre success w in
    let '(s2, t2, w2) := build_all post s1 w1 in
    (s2, t1 ++ t2, w2).
Proof.
  revert success w. induction pre as [|c pre IH]; intros success w.
  - simpl. now destruct (build_all post success w) as [[s2 t2] w2].
  - cbn [app Build.build_all].
    destruct (build_circuit c w) as [[ok ev] w'].
    rewrite IH.
    destruct (build_all pre (if negb ok then false else success) w')
      as [[s1 t1] w1].
    destruct (build_all post s1 w1) as [[s2 t2] w2].
    now rewrite app_assoc.
Qed.

Lemma build_all_trace (circuits : list string) (success : bool) (w : World) :
  let '(result, tr, _) := build_all circuits success w in
  probed tr = map (module_path I) circuits /\
  map (fun r => fst (fst r)) (runs tr)
    = map (fun p => [sys_executable I; Path.str p]) (found_files tr) /\
  result = success && forallb (fun r => (snd r =? 0)%Z) (runs tr).
Proof.
  revert success w. induction circuits as [|c rest IH]; intros success w.
  - simpl. now rewrite andb_true_r.
  - cbn [Build.build_all].
    pose proof (build_circuit_trace c w) as Hc.
    destruct (build_circuit c w) as [[ok ev] w'].
    destruct Hc as (Hp & Hr & Hok).
    specialize (IH (if negb ok then false else success) w').
    destruct (build_all rest (if negb ok then false else success) w')
      as [[result ev'] w''].
    destruct IH as (Hp' & Hr' & Hres).
    rewrite probed_app, runs_app, found_files_app, !map_app, forallb_app.
    rewrite Hp, Hp', Hr, Hr', Hres, <- Hok. repeat split.
    now destruct ok, success.
Qed.

Lemma main_on_trace (circuits : list string) (w : World) :
  let '(code, tr, _) := main_on circuits w in
  probed tr = map (module_path I) circuits /\
  map (fun r => fst (fst r)) (runs tr)
    = map (fun p => [sys_executable I; Path.str p]) (found_files tr) /\
  code = (if forallb (fun r => (snd r =? 0)%Z) (runs tr) then 0 else 1)%Z /\
  last (printed tr) =
    Some (if forallb (fun r => (snd r =? 0)%Z) (runs tr)
          then "BUILD COMPLETE - All circuits generated successfully"
          else "BUILD FAILED - See errors above").
Proof.
  unfold Build.main_on.
  pose proof (build_all_trace circuits true w) as H.
  destruct (build_all circuits true w) as [[success ev] w'].
  destruct H as (Hp & Hr & Hs). cbn [andb] in Hs.
  destruct success;
    rewrite !probed_app, !runs_app, !found_files_app, !printed_app;
    cbn [probed runs found_files printed app];
    rewrite !app_nil_r, <- Hs, !app_comm_cons, last_snoc; auto.
Qed.

End Orchestrator.
End BuildFacts.

Lemma forallb_zero_Forall (rs : list (list string * Path.t * Z)) :
  forallb (fun r => (snd r =? 0)%Z) rs = true <-> Forall (fun r => snd r = 0%Z) rs.
Proof.
  induction rs as [|r rs IH]; simpl.
  - split; auto.
  - rewrite andb_true_iff, IH, Z.eqb_eq. split.
    + intros [H1 H2]. now constructor.
    + intros H. now inversion H.
Qed.

Lemma forallb_zero_Exists (rs : list (list string * Path.t * Z)) :
  forallb (fun r => (snd r =? 0)%Z) rs = false <-> Exists (fun r => snd r <> 0%Z) rs.
Proof.
  induction rs as [|r rs IH]; simpl.
  - split; [discriminate|]. intros H. inversion H.
  - rewrite andb_false_iff, IH, Z.eqb_neq. split.
    + intros [H|H]; [now left|now right].
    + intros H. inversion H; auto.
Qed.

(** *** The orchestrator against its specification *)
Module BuildRefines.
Import Build BuildSpec.

Lemma calls_app (t1 t2 : list event) : calls (t1 ++ t2) = calls t1 ++ calls t2.
Proof.
  induction t1 as [|[] t1 IH]; simpl; [reflexivity| | |]; now rewrite ?IH.
Qed.

Lemma runs_calls (tr : list event) : runs (calls tr) = runs tr.
Proof.
  induction tr as [|[] tr IH]; simpl; [reflexivity| | |]; now rewrite ?IH.
Qed.

Lemma probed_calls (tr : list event) : probed (calls tr) = probed tr.
Proof.
  induction tr as [|[] tr IH]; simpl; [reflexivity| | |]; now rewrite ?IH.
Qed.

Section Orchestrator.

Variable I : Install.
Variable World : Type.
Variable path_exists : World -> Path.t -> bool.
Variable subprocess_run : list string -> Path.t -> World -> Z * World.

Local Abbreviation build_circuit := (build_circuit I World path_exists subprocess_run).
Local Abbreviation build_all := (build_all I World path_exists subprocess_run).
Local Abbreviation main_on := (main_on I World path_exists subprocess_run).
Local Abbreviation expected := (expected I World path_exists subprocess_run).

Lemma expected_app (pre post : list string) (w : World) :
  expected (pre ++ post) w =
    let '(e1, w1) := expected pre w in
    let '(e2, w2) := expected post w1 in
    (e1 ++ e2, w2).
Proof.
  revert w. induction pre as [|c pre IH]; intros w.
  - simpl. now destruct (expected post w).
  - cbn [app BuildSpec.expected]. cbv zeta.
    destruct (path_exists w (circuits_dir I // (c +:+ ".py"))).
    + destruct (subprocess_run _ _ w) as [rc w1]. rewrite IH.
      destruct (expected pre w1) as [e1 w1'].
      now destruct (expected post w1') as [e2 w2].
    + rewrite IH. destruct (expected pre w) as [e1 w1'].
      now destruct (expected post w1') as [e2 w2].
Qed.

Lemma probed_expected (circuits : list string) (w : World) :
  probed (fst (expected circuits w)) = map (module_path I) circuits.
Proof.
  revert w. induction circuits as [|c rest IH]; intros w; [reflexivity|].
  cbn [BuildSpec.expected map]. cbv zeta.
  destruct (path_exists w (circuits_dir I // (c +:+ ".py"))).
  - destruct (subprocess_run _ _ w) as [rc w1]. specialize (IH w1).
    destruct (expected rest w1) as [later w2]. cbn [fst probed] in *.
    now rewrite IH.
  - specialize (IH w). destruct (expected rest w) as [later w2].
    cbn [fst probed] in *. now rewrite IH.
Qed.

(** The loop of [main] makes the calls the specification expects, and
    ends in the world it expects. *)
Lemma build_all_calls (circuits : list string) (success : bool) (w : World) :
  (calls (snd (fst (build_all circuits success w))),
   snd (build_all circuits success w))
  = expected circuits w.
Proof.
  revert success w. induction circuits as [|c rest IH]; intros success w.
  - reflexivity.
  - cbn [Build.build_all BuildSpec.expected]. cbv zeta.
    change (circuits_dir I // (c +:+ ".py")) with (module_path I c).
    change (Path.parent (circuits_dir I)) with (Path.parent (CIRCUITS_DIR I)).
    destruct (path_exists w (module_path I c)) eqn:H.
    + rewrite (BuildFacts.build_circuit_present I World path_exists
                 subprocess_run c w H). cbv zeta.
      destruct (subprocess_run [sys_executable I; Path.str (module_path I c)]
                  (Path.parent (CIRCUITS_DIR I)) w) as [rc w1]. cbn [fst snd].
      specialize (IH (if negb (rc =? 0)%Z then false else success) w1).
      destruct (build_all rest (if negb (rc =? 0)%Z then false else success) w1)
        as [[result ev'] w'']. cbn [fst snd] in *.
      rewrite <- IH. rewrite !calls_app. cbn [calls app].
      now destruct (rc =? 0)%Z.
    + rewrite (BuildFacts.build_circuit_absent I World path_exists
                 subprocess_run c w H). cbn [negb].
      specialize (IH success w).
      destruct (build_all rest success w) as [[result ev'] w'']. cbn [fst snd] in *.
      rewrite <- IH. reflexivity.
Qed.

Lemma main_on_calls (circuits : list string) (w : World) :
  (calls (snd (fst (main_on circuits w))), snd (main_on circuits w))
  = expected circuits w.
Proof.
  unfold Build.main_on. rewrite <- (build_all_calls circuits true w).
  destruct (build_all circuits true w) as [[success ev] w'].
  destruct success; cbn [fst snd]; rewrite !calls_app; cbn [calls app];
    now rewrite !app_nil_r.
Qed.

End Orchestrator.
End BuildRefines.

(** C2: the orchestrator makes the calls on the world that the
    specification of its steps expects - each file looked for, each file
    found run - and ends in the world they leave; its exit status is 0
    exactly when every child process among them returned 0 (a circuit
    whose file is absent runs no process), and then the last line printed
    is the BUILD COMPLETE line; it is 1 exactly when some child process
    returned a code other than 0, and then the last line is the BUILD
    FAILED line.  This holds for every list of circuits, in particular for
    the configured one. *)
Theorem main_exit_status (I : Install) (World : Type)
    (path_exists : World -> Path.t -> bool)
    (subprocess_run : list string -> Path.t -> World -> Z * World)
    (circuits : list string) (w : World) :
  let '(code, tr, w') := Build.main_on I World path_exists subprocess_run circuits w in
  let '(steps, w_end) :=
    BuildSpec.expected I World path_exists subprocess_run circuits w in
  BuildSpec.calls tr = steps /\
  w' = w_end /\
  (code = 0%Z <-> Forall (fun r => snd r = 0%Z) (Build.runs steps)) /\
  (code = 1%Z <-> Exists (fun r => snd r <> 0%Z) (Build.runs steps)) /\
  (code = 0%Z <-> Forall (fun r => snd r = 0%Z) (Build.runs tr)) /\
  (code = 1%Z <-> Exists (fun r => snd r <> 0%Z) (Build.runs tr)) /\
  (code = 0%Z \/ code = 1%Z) /\
  (code = 0%Z ->
   last (Build.printed tr)
     = Some "BUILD COMPLETE - All circuits generated successfully") /\
  (code = 1%Z ->
   last (Build.printed tr) = Some "BUILD FAILED - See errors above").
Proof.
  pose proof (BuildFacts.main_on_trace I World path_exists subprocess_run circuits w) as H.
  pose proof (BuildRefines.main_on_calls I World path_exists subprocess_run circuits w) as Hc.
  destruct (Build.main_on I World path_exists subprocess_run circuits w) as [[code tr] w'].
  destruct (BuildSpec.expected I World path_exists subprocess_run circuits w)
    as [steps w_end].
  cbn [fst snd] in Hc. injection Hc as Hcalls Hw.
  destruct H as (_ & _ & Hcode & Hl).
  split; [exact Hcalls|]. split; [exact Hw|].
  rewrite <- Hcalls, BuildRefines.runs_calls.
  rewrite <- forallb_zero_Forall, <- forallb_zero_Exists.
  destruct (forallb (fun r => (snd r =? 0)%Z) (Build.runs tr)); subst code;
    repeat split; auto; discriminate.
Qed.

(** C3: for every list of circuits the orchestrator tests the file of
    every circuit of the list, in the order of the list, and runs one
    child process for each file that is there, in that order, each from
    the world the one before left, as the specification of its steps
    expects.  A child that returns a code other than 0 makes the exit
    status 1 and does not stop the loop: whatever stands before and after
    the failing circuit in the list, the circuits after it are looked for
    and built from the world the failed child leaves, exactly as they
    would be after a success. *)
Theorem main_attempts_every_circuit (I : Install) (World : Type)
    (path_exists : World -> Path.t -> bool)
    (subprocess_run : list string -> Path.t -> World -> Z * World)
    (circuits : list string) (w : World) :
  let '(code, tr, w') := Build.main_on I World path_exists subprocess_run circuits w in
  Build.probed tr = map (Build.module_path I) circuits /\
  map (fun r => fst (fst r)) (Build.runs tr)
    = map (fun p => [sys_executable I; Path.str p]) (Build.found_files tr) /\
  (Exists (fun r => snd r <> 0%Z) (Build.runs tr) -> code = 1%Z) /\
  (forall pre post success w0,
     Build.build_all I World path_exists subprocess_run (pre ++ post) success w0 =
     let '(s1, t1, w1) :=
       Build.build_all I World path_exists subprocess_run pre success w0 in
     let '(s2, t2, w2) :=
       Build.build_all I World path_exists subprocess_run post s1 w1 in
     (s2, t1 ++ t2, w2)) /\
  (BuildSpec.calls tr, w')
    = BuildSpec.expected I World path_exists subprocess_run circuits w /\
  (forall pre name post,
     circuits = pre ++ name :: post ->
     let '(before, w1) :=
       BuildSpec.expected I World path_exists subprocess_run pre w in
     let file := circuits_dir I // (name +:+ ".py") in
     let argv := [sys_executable I; Path.str file] in
     let root := Path.parent (circuits_dir I) in
     path_exists w1 file = true ->
     let '(rc, w2) := subprocess_run argv root w1 in
     rc <> 0%Z ->
     let '(after, w3) :=
       BuildSpec.expected I World path_exists subprocess_run post w2 in
     code = 1%Z /\
     BuildSpec.calls tr
       = before ++ [Build.EExists file true; Build.ERun argv root rc] ++ after /\
     Build.probed after = map (Build.module_path I) post /\
     w' = w3).
Proof.
  pose proof (BuildFacts.main_on_trace I World path_exists subprocess_run circuits w) as H.
  pose proof (BuildRefines.main_on_calls I World path_exists subprocess_run circuits w) as Hc.
  destruct (Build.main_on I World path_exists subprocess_run circuits w) as [[code tr] w'].
  cbn [fst snd] in Hc.
  destruct H as (Hp & Hr & Hcode & _).
  split; [exact Hp|]. split; [exact Hr|]. split.
  { intros Hex. apply forallb_zero_Exists in Hex. now rewrite Hex in Hcode. }
  split; [intros; apply BuildFacts.build_all_app|].
  split; [exact Hc|].
  intros pre name post ->.
  rewrite BuildRefines.expected_app in Hc.
  destruct (BuildSpec.expected I World path_exists subprocess_run pre w)
    as [before w1].
  cbv zeta. intros Hex.
  cbn [BuildSpec.expected] in Hc. cbv zeta in Hc. rewrite Hex in Hc.
  destruct (subprocess_run
              [sys_executable I; Path.str (circuits_dir I // (name +:+ ".py"))]
              (Path.parent (circuits_dir I)) w1) as [rc w2].
  intros Hrc.
  pose proof (BuildRefines.probed_expected I World path_exists subprocess_run
                post w2) as Hpost.
  destruct (BuildSpec.expected I World path_exists subprocess_run post w2)
    as [after w3].
  cbn [fst] in Hpost. injection Hc as Hcalls Hw.
  split; [|split; [exact Hcalls|split; [exact Hpost|exact Hw]]].
  assert (Build.runs tr = Build.runs (BuildSpec.calls tr)) as Hruns
    by (symmetry; apply BuildRefines.runs_calls).
  rewrite Hcalls, BuildFacts.runs_app in Hruns. cbn [Build.runs app] in Hruns.
  rewrite Hruns, forallb_app in Hcode. cbn [forallb snd] in Hcode.
  apply Z.eqb_neq in Hrc. rewrite Hrc in Hcode. cbn [andb] in Hcode.
  now rewrite andb_false_r in Hcode.
Qed.

(** C4: a circuit whose file does not exist is skipped: [build_circuit]
    prints the SKIP line and nothing else, runs no child process, leaves
    the world as it is and returns [True]; in the loop of [main] the flag
    [success] goes on to the remaining circuits unchanged. *)
Theorem build_circuit_skips_missing (I : Install) (World : Type)
    (path_exists : World -> Path.t -> bool)
    (subprocess_run : list string -> Path.t -> World -> Z * World)
    (name : string) (w : World) :
  path_exists w (circuits_dir I // (name +:+ ".py")) = false ->
  let '(ok, tr, w') := Build.build_circuit I World path_exists subprocess_run name w in
  ok = true /\
  Build.printed tr = ["SKIP: " +:+ name +:+ ".py not found"] /\
  Build.runs tr = [] /\
  w' = w /\
  forall rest success,
    Build.build_all I World path_exists subprocess_run (name :: rest) success w =
    let '(result, tr', w'') :=
      Build.build_all I World path_exists subprocess_run rest success w in
    (result, tr ++ tr', w'').
Proof.
  intros H.
  rewrite (BuildFacts.build_circuit_absent I World path_exists subprocess_run name w H).
  repeat split. intros rest success. cbn [Build.build_all].
  now rewrite (BuildFacts.build_circuit_absent I World path_exists subprocess_run name w H).
Qed.

Lemma build_circuit_skips_missing_witness :
  let '(ok, tr, w') :=
    Build.build_circuit Sample.install FS.t Sample.path_exists
      Sample.subprocess_run "ghost_module" Sample.checkout in
  ok = true /\
  Build.printed tr = ["SKIP: ghost_module.py not found"] /\
  Build.runs tr = [] /\
  w' = Sample.checkout /\
  forall rest success,
    Build.build_all Sample.install FS.t Sample.path_exists
      Sample.subprocess_run ("ghost_module" :: rest) success Sample.checkout =
    let '(result, tr', w'') :=
      Build.build_all Sample.install FS.t Sample.path_exists
        Sample.subprocess_run rest success Sample.checkout in
    (result, tr ++ tr', w'').
Proof.
  apply (build_circuit_skips_missing Sample.install FS.t Sample.path_exists
           Sample.subprocess_run "ghost_module" Sample.checkout).
  vm_compute. reflexivity.
Defined.

(** C5: a circuit whose file exists is built by one child process: the
    interpreter on that file, with the parent of the circuits directory
    (the project root) as working directory; [build_circuit] returns with
    the world as the ended child leaves it, and its result is [True]
    exactly when the child returned 0. *)
Theorem build_circuit_runs_existing (I : Install) (World : Type)
    (path_exists : World -> Path.t -> bool)
    (subprocess_run : list string -> Path.t -> World -> Z * World)
    (name : string) (w : World) :
  path_exists w (circuits_dir I // (name +:+ ".py")) = true ->
  let file := circuits_dir I // (name +:+ ".py") in
  let root := Path.parent (circuits_dir I) in
  let '(rc, w1) := subprocess_run [sys_executable I; Path.str file] root w in
  let '(ok, tr, w') := Build.build_circuit I World path_exists subprocess_run name w in
  Build.runs tr = [([sys_executable I; Path.str file], root, rc)] /\
  root = Circuits.PROJECT_ROOT I /\
  w' = w1 /\
  ok = (rc =? 0)%Z.
Proof.
  intros H file root.
  rewrite (BuildFacts.build_circuit_present I World path_exists subprocess_run name w H).
  cbv zeta. change (Path.parent (Build.CIRCUITS_DIR I)) with root.
  change (Build.module_path I name) with file.
  destruct (subprocess_run [sys_executable I; Path.str file] root w) as [rc w1].
  cbn [fst snd]. repeat split.
  destruct (rc =? 0)%Z; reflexivity.
Qed.

Lemma build_circuit_runs_existing_witness :
  let file := circuits_dir Sample.install // ("power_supply" +:+ ".py") in
  let root := Path.parent (circuits_dir Sample.install) in
  let '(rc, w1) :=
    Sample.subprocess_run [sys_executable Sample.install; Path.str file] root
      Sample.checkout in
  let '(ok, tr, w') :=
    Build.build_circuit Sample.install FS.t Sample.path_exists
      Sample.subprocess_run "power_supply" Sample.checkout in
  Build.runs tr = [([sys_executable Sample.install; Path.str file], root, rc)] /\
  root = Circuits.PROJECT_ROOT Sample.install /\
  w' = w1 /\
  ok = (rc =? 0)%Z.
Proof.
  apply (build_circuit_runs_existing Sample.install FS.t Sample.path_exists
           Sample.subprocess_run "power_supply" Sample.checkout).
  vm_compute. reflexivity.
Defined.

(** ** The power-supply script *)
Module PowerSupplyFacts.
Import Skidl.

Lemma print_all_run (lines : list string) (s : Proc) :
  print_all lines s =
    (Returns tt,
     mkProc (environ s) (fs s) (sys_path s) (default_tool s) (circuit s)
       (stdout s ++ lines) (stderr s) (netlists s)).
Proof.
  revert s. induction lines as [|l lines IH]; intros s.
  - simpl. rewrite app_nil_r. now destruct s.
  - cbn [print_all bind Monad_M]. unfold print at 1. rewrite IH.
    cbn [environ fs sys_path default_tool circuit stdout stderr netlists].
    now rewrite <- app_assoc.
Qed.

Section Script.

Variable I : Install.
Variable L : Library.

(** The script, spelled out from a new process: the two places where it
    can stop early are [mkdir] in [init_skidl] and the write of the
    netlist. *)
Lemma script_run (env : gmap string string) (files : FS.t) :
  PowerSupply.script I L (fresh env files) =
  let env' :=
    <["KICAD8_FOOTPRINT_DIR" := Circuits.KICAD_FOOTPRINTS]>
      (<["KICAD8_SYMBOL_DIR" := Circuits.KICAD_SYMBOLS]> env) in
  let root := [Path.str (PowerSupply.PROJECT_ROOT I)] in
  let c := PowerSupply.graph L in
  match FS.mkdir_parents true files (Circuits.OUTPUT_DIR I) with
  | Raises e =>
      (Raises e, mkProc env' files root None default_circuit [] [] [])
  | Returns f1 =>
      match FS.write_file f1 (PowerSupply.netlist_path I) with
      | Raises e =>
          (Raises e,
           mkProc env' f1 root (Some KICAD8) c (PowerSupply.console L c) (erc_rules L c) [])
      | Returns f2 =>
          (Returns tt,
           mkProc env' f2 root (Some KICAD8) c
             (PowerSupply.console L c ++
                ["Netlist written to: " +:+ Path.str (PowerSupply.netlist_path I)])
             (erc_rules L c)
             [(PowerSupply.netlist_path I, c)])
      end
  end.
Proof.
  unfold PowerSupply.script.
  cbn [bind Monad_M]. unfold sys_path_insert0 at 1, fresh.
  cbn [environ fs sys_path default_tool circuit stdout stderr netlists].
  rewrite init_skidl_unfold. cbv zeta.
  cbn [environ fs sys_path default_tool circuit stdout stderr netlists].
  destruct (FS.mkdir_parents true files (Circuits.OUTPUT_DIR I)) as [f1|e];
    [|reflexivity].
  unfold on_circuit at 1.
  cbn [environ fs sys_path default_tool circuit stdout stderr netlists].
  unfold PowerSupply.graph.
  destruct (PowerSupply.declarations L default_circuit) as [[] c]. cbn [snd].
  unfold print at 1 2 3, ERC, on_circuit.
  cbn [environ fs sys_path default_tool circuit stdout stderr netlists].
  rewrite print_all_run.
  cbn [environ fs sys_path default_tool circuit stdout stderr netlists].
  unfold print at 1 2 3, generate_netlist.
  cbn [environ fs sys_path default_tool circuit stdout stderr netlists].
  destruct (FS.write_file f1 (PowerSupply.netlist_path I)) as [f2|e].
  - unfold print, PowerSupply.console.
    cbn [environ fs sys_path default_tool circuit stdout stderr netlists app].
    rewrite <- !app_assoc. reflexivity.
  - unfold PowerSupply.console. cbn [app]. rewrite <- !app_assoc. reflexivity.
Qed.

End Script.
End PowerSupplyFacts.

Module WriteFacts.
Import FS.

Lemma write_file_returns (files files' : FS.t) (p : Path.t) :
  write_file files p = Returns files' ->
  files' = <[p := File]> files /\ is_file files' p = true.
Proof.
  destruct p as [|a up]; [discriminate|]. unfold write_file.
  destruct (resolve files up) as [[]| |] eqn:Hup; try discriminate.
  assert (is_file (<[a :: up := File]> files) (a :: up) = true) as Hf.
  { unfold is_file. now rewrite FSFacts.resolve_insert_here. }
  destruct (files !! (a :: up)) as [[]|]; try discriminate;
    intros [= <-]; auto.
Qed.

Lemma write_file_in_dir (files : FS.t) (a : string) (up : Path.t) :
  is_dir files up = true ->
  files !! (a :: up) <> Some Dir ->
  exists files', write_file files (a :: up) = Returns files'.
Proof.
  unfold is_dir, write_file. intros Hd Hp.
  destruct (resolve files up) as [[]| |]; try discriminate.
  destruct (files !! (a :: up)) as [[]|]; eauto. now destruct Hp.
Qed.

(** The regular files after a write: the ones before, and the one
    written. *)
Lemma write_file_files (files files' : FS.t) (p q : Path.t) :
  write_file files p = Returns files' ->
  files' !! q = Some File <-> q = p \/ files !! q = Some File.
Proof.
  intros H. apply write_file_returns in H as [-> _].
  destruct (decide (p = q)) as [<-|Hne].
  - rewrite lookup_insert_eq. split; auto.
  - rewrite lookup_insert_ne by exact Hne. split; auto.
    intros [->|]; [now destruct Hne|trivial].
Qed.

End WriteFacts.

(** C1: the exit status of the power-supply script is 0 exactly when the
    script runs to its end, and other than 0 exactly when an exception is
    not caught; whether it runs to its end is decided by the two calls on
    the file system alone ([mkdir] in [init_skidl] and the write of the
    netlist), not by what the rules check reports.  When it runs to its
    end the netlist file is written, one call of [generate_netlist] was
    made on the declared graph, and the diagnostics of the rules check,
    whatever they are, were only reported.  It does run to its end when no
    regular file stands in the way of the output directory and the netlist
    path is not a directory. *)
Theorem power_supply_exit_status (I : Install) (L : Skidl.Library)
    (env : gmap string string) (files : FS.t) :
  let '(code, s) := PowerSupply.run I L env files in
  let r := fst (PowerSupply.script I L (fresh env files)) in
  (code = 0%Z <-> r = Returns tt) /\
  (code <> 0%Z <-> exists e, r = Raises e) /\
  (r = Returns tt <->
   exists f1 f2,
     FS.mkdir_parents true files (Circuits.OUTPUT_DIR I) = Returns f1 /\
     FS.write_file f1 (PowerSupply.netlist_path I) = Returns f2) /\
  (r = Returns tt ->
   FS.is_file (fs s) (PowerSupply.netlist_path I) = true /\
   netlists s = [(PowerSupply.netlist_path I, PowerSupply.graph L)] /\
   stderr s = Skidl.erc_rules L (PowerSupply.graph L)) /\
  (FS.unobstructed files (Circuits.OUTPUT_DIR I) ->
   files !! PowerSupply.netlist_path I <> Some FS.Dir ->
   code = 0%Z).
Proof.
  unfold PowerSupply.run. rewrite PowerSupplyFacts.script_run. cbv zeta.
  destruct (FS.mkdir_parents true files (Circuits.OUTPUT_DIR I)) as [f1|e] eqn:Hmk.
  - destruct (FS.write_file f1 (PowerSupply.netlist_path I)) as [f2|e] eqn:Hwr;
      cbn [fst snd exit_status fs netlists stderr].
    + repeat split; auto; try discriminate.
      * intros H. now destruct H.
      * intros [e [=]].
      * intros _. eauto.
      * now apply WriteFacts.write_file_returns in Hwr.
    + repeat split; try discriminate; try (intros [=]).
      * eauto.
      * intros (g1 & g2 & [= <-] & Hg). congruence.
      * intros Hfree Hnd. exfalso.
        destruct (WriteFacts.write_file_in_dir f1 "power_supply.net"
                    (Circuits.OUTPUT_DIR I)) as [f2 Hf2].
        -- exact (FSFacts.mkdir_parents_is_dir _ _ _ Hmk).
        -- destruct (FSFacts.mkdir_parents_grows _ _ _ _ Hmk
                       ("power_supply.net" :: Circuits.OUTPUT_DIR I))
             as [E|(Hs & _ & _)].
           ++ now rewrite E.
           ++ apply suffix_length in Hs. simpl in Hs. lia.
        -- unfold PowerSupply.netlist_path, Path.join in Hwr. congruence.
  - cbn [fst snd exit_status].
    repeat split; try discriminate; try (intros [=]).
    + eauto.
    + intros (g1 & g2 & [=] & _).
    + intros Hfree _. exfalso.
      destruct (FSFacts.mkdir_parents_returns _ _ Hfree) as [f1 Hf1]. congruence.
Qed.

(** C6: the script writes one netlist file, at
    [PROJECT_ROOT/kicad/trace-eurorack-module/netlists/power_supply.net],
    the name being the circuit name followed by [.net]: a run that ends
    made exactly one call of [generate_netlist], on that path and on the
    declared graph, and the path then is a regular file in the output
    directory; in a run that stops early no call of [generate_netlist]
    returned. *)
Theorem power_supply_netlist_file (I : Install) (L : Skidl.Library)
    (env : gmap string string) (files : FS.t) :
  let '(code, s) := PowerSupply.run I L env files in
  PowerSupply.netlist_path I =
    Circuits.PROJECT_ROOT I // "kicad" // "trace-eurorack-module" // "netlists"
      // ("power_supply" +:+ ".net") /\
  Circuits.PROJECT_ROOT I = Path.parent (circuits_dir I) /\
  Build.CIRCUITS = ["power_supply"] /\
  (code = 0%Z ->
   netlists s = [(PowerSupply.netlist_path I, PowerSupply.graph L)] /\
   FS.is_file (fs s) (PowerSupply.netlist_path I) = true /\
   FS.is_dir (fs s) (Circuits.OUTPUT_DIR I) = true) /\
  (code <> 0%Z -> netlists s = []).
Proof.
  unfold PowerSupply.run. rewrite PowerSupplyFacts.script_run. cbv zeta.
  destruct (FS.mkdir_parents true files (Circuits.OUTPUT_DIR I)) as [f1|e] eqn:Hmk.
  - pose proof (FSFacts.mkdir_parents_is_dir _ _ _ Hmk) as Hd.
    destruct (FS.write_file f1 (PowerSupply.netlist_path I)) as [f2|e] eqn:Hwr;
      cbn [fst snd exit_status fs netlists].
    + do 3 (split; [reflexivity|]). split.
      * intros _. split; [reflexivity|].
        apply WriteFacts.write_file_returns in Hwr as [-> Hfile].
        split; [exact Hfile|].
        unfold FS.is_dir. rewrite FSFacts.resolve_insert_longer; [exact Hd|].
        unfold PowerSupply.netlist_path, Path.join. simpl. lia.
      * intros H. now destruct H.
    + do 3 (split; [reflexivity|]). split; [discriminate|].
      intros _. reflexivity.
  - cbn [fst snd exit_status fs netlists].
    do 3 (split; [reflexivity|]). split; [discriminate|].
    intros _. reflexivity.
Qed.

(** ** Sorting by a string key *)
Module SortFacts.

Lemma ascii_compare_refl (a : ascii) : Ascii.compare a a = Eq.
Proof. unfold Ascii.compare. apply N.compare_refl. Qed.

Lemma ascii_compare_lt_trans (a b c : ascii) :
  Ascii.compare a b = Lt -> Ascii.compare b c = Lt -> Ascii.compare a c = Lt.
Proof.
  unfold Ascii.compare. rewrite !N.compare_lt_iff. apply N.lt_trans.
Qed.

Lemma compare_not_gt_trans (s1 s2 s3 : string) :
  String.compare s1 s2 <> Gt -> String.compare s2 s3 <> Gt ->
  String.compare s1 s3 <> Gt.
Proof.
  revert s2 s3. induction s1 as [|a s1 IH]; intros [|b s2] [|c s3]; simpl;
    try congruence.
  destruct (Ascii.compare a b) eqn:Hab; try congruence;
    destruct (Ascii.compare b c) eqn:Hbc; try congruence.
  - apply Ascii.compare_eq_iff in Hab, Hbc. subst.
    rewrite ascii_compare_refl. apply IH.
  - apply Ascii.compare_eq_iff in Hab. subst. now rewrite Hbc.
  - apply Ascii.compare_eq_iff in Hbc. subst. now rewrite Hab.
  - now rewrite (ascii_compare_lt_trans _ _ _ Hab Hbc).
Qed.

Lemma leb_trans (s1 s2 s3 : string) :
  String.leb s1 s2 = true -> String.leb s2 s3 = true -> String.leb s1 s3 = true.
Proof.
  unfold String.leb. intros H12 H23.
  pose proof (compare_not_gt_trans s1 s2 s3) as H.
  destruct (String.compare s1 s2), (String.compare s2 s3),
    (String.compare s1 s3); try discriminate; try reflexivity;
    exfalso; apply H; congruence.
Qed.

Section ByKey.

Context {A : Type} (key : A -> string).

Local Abbreviation key_le := (key_le key).

Lemma insert_by_perm (x : A) (l : list A) :
  Permutation (x :: l) (insert_by key x l).
Proof.
  induction l as [|y l IH]; simpl; [reflexivity|].
  destruct (String.leb (key x) (key y)); [reflexivity|].
  rewrite perm_swap. now constructor.
Qed.

Lemma sorted_perm (l : list A) : Permutation l (sorted key l).
Proof.
  induction l as [|x l IH]; simpl; [reflexivity|].
  rewrite <- insert_by_perm. now constructor.
Qed.

Lemma insert_by_sorted (x : A) (l : list A) :
  StronglySorted key_le l -> StronglySorted key_le (insert_by key x l).
Proof.
  induction 1 as [|y l Hl IH Hy]; simpl.
  - repeat constructor.
  - destruct (String.leb (key x) (key y)) eqn:Hxy.
    + constructor; [now constructor|]. constructor; [exact Hxy|].
      eapply List.Forall_impl; [|exact Hy]. intros z Hz. exact (leb_trans _ _ _ Hxy Hz).
    + constructor; [exact IH|].
      rewrite <- insert_by_perm. constructor; [|exact Hy].
      destruct (String.leb_total (key x) (key y)) as [H|H]; [congruence|exact H].
Qed.

Lemma sorted_sorted (l : list A) : StronglySorted key_le (sorted key l).
Proof.
  induction l as [|x l IH]; simpl; [constructor|]. now apply insert_by_sorted.
Qed.


Lemma filter_perm (f : A -> bool) (l l' : list A) :
  Permutation l l' -> Permutation (List.filter f l) (List.filter f l').
Proof.
  induction 1; simpl.
  - reflexivity.
  - destruct (f x); [now constructor|trivial].
  - destruct (f x), (f y); try reflexivity. apply perm_swap.
  - etransitivity; eassumption.
Qed.

End ByKey.
End SortFacts.

Lemma startswith_append (pre s : string) : startswith (pre +:+ s) pre = true.
Proof.
  unfold startswith. induction pre as [|a pre IH]; simpl.
  - now destruct s.
  - destruct (ascii_dec a a); [exact IH|congruence].
Qed.


Lemma listed_nets_shown (c : Skidl.Circuit) (n : Skidl.Net) :
  In n (PowerSupply.listed_nets c) -> PowerSupply.shown n = true.
Proof. unfold PowerSupply.listed_nets. intros H. now apply List.filter_In in H. Qed.


(** C10: in the graph that the script declares there is one net named
    [-12V], and its only pin is the anode of the Schottky diode; pin 1 of
    the power connector and the cathode of the diode are on one net, which
    no [Net(...)] call made: its name starts with [N$], and the summary
    leaves it out. *)
Theorem minus_12v_net (L : Skidl.Library) :
  let c := PowerSupply.graph L in
  let j1 := 0 in
  let d1 := 1 in
  Skidl.part_name <$> Skidl.parts c !! j1 = Some "Conn_02x05_Odd_Even" /\
  Skidl.part_name <$> Skidl.parts c !! d1 = Some "D_Schottky" /\
  List.filter (fun n => String.eqb (Skidl.net_name n) "-12V") (Skidl.nets c)
    = [Skidl.mkNet "-12V" Skidl.POWER [PowerSupply.pin d1 "A"]] /\
  exists i n,
    Skidl.pin_net c (PowerSupply.pn j1 1) = Some i /\
    Skidl.pin_net c (PowerSupply.pin d1 "K") = Some i /\
    Skidl.nets c !! i = Some n /\
    Skidl.net_pins n = [PowerSupply.pn j1 1; PowerSupply.pin d1 "K"] /\
    Skidl.net_name n =
      Skidl.NET_PREFIX +:+
        Skidl.implicit_tail L
          ["__NOCONNECT"; "+12V"; "-12V"; "GND"; "+3.3V"; "SW"] /\
    startswith (Skidl.net_name n) "N$" = true /\
    ~ In n (PowerSupply.listed_nets c).
Proof.
  intros c j1 d1. subst c j1 d1.
  split; [vm_compute; reflexivity|].
  split; [vm_compute; reflexivity|].
  split; [vm_compute; reflexivity|].
  exists 6.
  exists (Skidl.mkNet
            (Skidl.NET_PREFIX +:+
               Skidl.implicit_tail L
                 ["__NOCONNECT"; "+12V"; "-12V"; "GND"; "+3.3V"; "SW"])
            Skidl.NONE [PowerSupply.pn 0 1; PowerSupply.pin 1 "K"]).
  split; [vm_compute; reflexivity|].
  split; [vm_compute; reflexivity|].
  split; [vm_compute; reflexivity|].
  split; [reflexivity|].
  split; [reflexivity|].
  cbn [Skidl.net_name].
  split; [apply startswith_append|].
  intros H. apply listed_nets_shown in H. unfold PowerSupply.shown in H.
  cbn [Skidl.net_name] in H. rewrite startswith_append in H.
  now rewrite andb_false_r in H.
Qed.

(** ** The sample installation, evaluated *)

(** A rules check that reports a violation changes neither the exit
    status nor the netlist written. *)
Example faulty_circuit_still_builds :
  let '(code, s) := PowerSupply.run Sample.install Sample.faulty ∅ Sample.checkout in
  code = 0%Z /\
  stderr s = ["ERC ERROR: Unconnected pin: INPUT pin 2/EN of AP63203WU/U1."] /\
  FS.is_file (fs s) (PowerSupply.netlist_path Sample.install) = true /\
  Path.str (PowerSupply.netlist_path Sample.install) =
    "/home/dev/trace-eurorack-module/kicad/trace-eurorack-module/netlists/power_supply.net".
Proof. vm_compute. repeat split. Qed.

(** A regular file in the place of the [kicad] directory stops the script
    in [init_skidl]: exit status 1, nothing generated. *)
Example blocked_output_dir_fails :
  let '(code, s) := PowerSupply.run Sample.install Sample.clean ∅ Sample.blocked in
  code = 1%Z /\ netlists s = [] /\ stdout s = [].
Proof. vm_compute. repeat split. Qed.

(** The net lines of the summary for the sample library. *)
Example sample_net_lines :
  map (PowerSupply.net_line Sample.clean (PowerSupply.graph Sample.clean))
      (PowerSupply.listed_nets (PowerSupply.graph Sample.clean)) =
  ["  +12V: J1.9, J1.10, C1.1, U1.IN, U1.EN";
   "  +3.3V: L1.2, C2.1, U1.FB";
   "  -12V: D1.A";
   "  GND: J1.2, J1.3, J1.4, J1.5, J1.6, J1.7, J1.8, C1.2, U1.GND, C2.2";
   "  SW: U1.SW, C3.1, L1.1";
   "  __NOCONNECT: "].
Proof. vm_compute. reflexivity. Qed.

(** The configured list on the sample checkout: one child, exit status 0. *)
Example sample_build_complete :
  let '(code, tr, _) :=
    Build.main Sample.install FS.t Sample.path_exists Sample.subprocess_run
      Sample.checkout in
  code = 0%Z /\
  map snd (Build.runs tr) = [0%Z] /\
  last (Build.printed tr) = Some "BUILD COMPLETE - All circuits generated successfully".
Proof. vm_compute. repeat split. Qed.

(** A circuit without a file is skipped and does not fail the build. *)
Example sample_build_with_ghost :
  let '(code, tr, _) :=
    Build.main_on Sample.install FS.t Sample.path_exists Sample.subprocess_run
      ["power_supply"; "ghost_module"] Sample.checkout in
  code = 0%Z /\
  In "SKIP: ghost_module.py not found" (Build.printed tr) /\
  length (Build.runs tr) = 1.
Proof. vm_compute. repeat split. auto 20. Qed.

(** A child that fails does not stop the circuits after it. *)
Example sample_build_goes_on_after_failure :
  let '(code, tr, _) :=
    Build.main_on Sample.install nat (fun _ _ => true)
      (fun _ _ n => (if Nat.eqb n 0 then 2%Z else 0%Z, S n))
      ["input_channel"; "power_supply"] 0 in
  code = 1%Z /\
  map snd (Build.runs tr) = [2%Z; 0%Z] /\
  last (Build.printed tr) = Some "BUILD FAILED - See errors above".
Proof. vm_compute. repeat split. Qed.

(** ** The graph handed to the library *)

(** Every pin that the script connects lies on one net only, so that the
    pins of a net are the pins attached to it. *)
Lemma graph_pins_distinct (L : Skidl.Library) :
  NoDup (concat (map Skidl.net_pins (Skidl.nets (PowerSupply.graph L)))).
Proof. apply (bool_decide_unpack _). vm_compute. reflexivity. Qed.

(** The declarations do not read the rules of the check. *)
Lemma graph_ignores_erc (L : Skidl.Library) (rules : Skidl.Circuit -> list string) :
  PowerSupply.graph
    (Skidl.mkLibrary (Skidl.new_ref L) (Skidl.pin_number L)
       (Skidl.implicit_tail L) rules (Skidl.pin_order L)
       (Skidl.pin_order_perm L))
  = PowerSupply.graph L.
Proof. vm_compute. reflexivity. Qed.

(** Two runs that end hand the same path and the same graph to
    [generate_netlist], whatever the environment variables and the file
    system they start from. *)
Lemma netlist_call_fixed (I : Install) (L : Skidl.Library)
    (env1 env2 : gmap string string) (files1 files2 : FS.t) :
  fst (PowerSupply.run I L env1 files1) = 0%Z ->
  fst (PowerSupply.run I L env2 files2) = 0%Z ->
  netlists (snd (PowerSupply.run I L env1 files1))
  = netlists (snd (PowerSupply.run I L env2 files2)).
Proof.
  unfold PowerSupply.run. rewrite !PowerSupplyFacts.script_run. cbv zeta.
  destruct (FS.mkdir_parents true files1 (Circuits.OUTPUT_DIR I)) as [f1|];
    [|discriminate].
  destruct (FS.write_file f1 (PowerSupply.netlist_path I)); [|discriminate].
  destruct (FS.mkdir_parents true files2 (Circuits.OUTPUT_DIR I)) as [g1|];
    [|discriminate].
  destruct (FS.write_file g1 (PowerSupply.netlist_path I)); [|discriminate].
  reflexivity.
Qed.

(** * Further properties of the orchestrator *)
Module BuildMore.
Import Build BuildSpec.

Section Orchestrator.

Variable I : Install.
Variable World : Type.
Variable path_exists : World -> Path.t -> bool.
Variable subprocess_run : list string -> Path.t -> World -> Z * World.

Local Abbreviation build_circuit := (build_circuit I World path_exists subprocess_run).
Local Abbreviation build_all := (build_all I World path_exists subprocess_run).
Local Abbreviation main_on := (main_on I World path_exists subprocess_run).
Local Abbreviation configured_run := (configured_run I).
Local Abbreviation skip_events := (skip_events I).

Lemma build_circuit_runs (name : string) (w : World) :
  Forall (configured_run [name]) (runs (snd (fst (build_circuit name w)))).
Proof.
  destruct (path_exists w (module_path I name)) eqn:H.
  - rewrite (BuildFacts.build_circuit_present _ _ _ _ _ _ H). cbv zeta.
    cbn [fst snd]. rewrite BuildFacts.runs_app. cbn [runs app].
    assert (runs (if (fst (subprocess_run
                             [sys_executable I; Path.str (module_path I name)]
                             (Path.parent (CIRCUITS_DIR I)) w) =? 0)%Z
                  then [] else [EPrint ("FAILED: " +:+ name)]) = []) as ->.
    { now destruct (_ =? _)%Z. }
    constructor; [|constructor]. split; [reflexivity|].
    exists name. split; [now left|reflexivity].
  - rewrite (BuildFacts.build_circuit_absent _ _ _ _ _ _ H). constructor.
Qed.

Lemma configured_run_mono (cs cs' : list string) (r : list string * Path.t * Z) :
  (forall n, In n cs -> In n cs') -> configured_run cs r -> configured_run cs' r.
Proof. intros Hsub (Hc & n & Hn & Ha). split; [exact Hc|]. exists n. auto. Qed.

Lemma build_all_runs (circuits : list string) (success : bool) (w : World) :
  Forall (configured_run circuits) (runs (snd (fst (build_all circuits success w)))).
Proof.
  revert success w. induction circuits as [|c rest IH]; intros success w.
  - constructor.
  - cbn [Build.build_all].
    pose proof (build_circuit_runs c w) as Hc.
    destruct (build_circuit c w) as [[ok ev] w']. cbn [fst snd] in Hc.
    specialize (IH (if negb ok then false else success) w').
    destruct (build_all rest (if negb ok then false else success) w')
      as [[result ev'] w'']. cbn [fst snd] in *.
    rewrite BuildFacts.runs_app. apply List.Forall_app. split.
    + eapply List.Forall_impl; [|exact Hc]. intros r.
      apply configured_run_mono. intros n [->|[]]. now left.
    + eapply List.Forall_impl; [|exact IH]. intros r.
      apply configured_run_mono. intros n Hn. now right.
Qed.

Lemma build_all_absent (circuits : list string) (success : bool) (w : World) :
  (forall name, In name circuits ->
                path_exists w (circuits_dir I // (name +:+ ".py")) = false) ->
  build_all circuits success w = (success, flat_map skip_events circuits, w).
Proof.
  revert success. induction circuits as [|c rest IH]; intros success H.
  - reflexivity.
  - cbn [Build.build_all flat_map].
    rewrite (BuildFacts.build_circuit_absent I World path_exists subprocess_run c w)
      by (apply H; now left).
    cbn [negb]. rewrite IH by (intros n Hn; apply H; now right).
    reflexivity.
Qed.

Lemma failed_lines_app (t1 t2 : list event) :
  failed_lines (t1 ++ t2) = failed_lines t1 ++ failed_lines t2.
Proof. unfold failed_lines. now rewrite BuildFacts.printed_app, List.filter_app. Qed.

Lemma failed_runs_app (t1 t2 : list event) :
  failed_runs (t1 ++ t2) = failed_runs t1 ++ failed_runs t2.
Proof. unfold failed_runs. now rewrite BuildFacts.runs_app, List.filter_app. Qed.

Lemma build_circuit_failed (name : string) (w : World) :
  let tr := snd (fst (build_circuit name w)) in
  length (failed_lines tr) = length (failed_runs tr) /\
  (forall l, In l (failed_lines tr) -> l = "FAILED: " +:+ name).
Proof.
  destruct (path_exists w (module_path I name)) eqn:H.
  - rewrite (BuildFacts.build_circuit_present _ _ _ _ _ _ H). cbv zeta.
    cbn [fst snd].
    destruct (fst (subprocess_run
                     [sys_executable I; Path.str (module_path I name)]
                     (Path.parent (CIRCUITS_DIR I)) w) =? 0)%Z eqn:Hrc.
    + unfold failed_lines, failed_runs. simpl. rewrite Hrc. simpl.
      split; [reflexivity|]. intros l [].
    + unfold failed_lines, failed_runs. cbn [app printed runs List.filter snd].
      rewrite Hrc. cbn [negb].
      change (String.prefix "FAILED: " ("FAILED: " +:+ name))
        with (startswith ("FAILED: " +:+ name) "FAILED: ").
      rewrite startswith_append. simpl.
      split; [reflexivity|]. intros l [<-|[]]. reflexivity.
  - rewrite (BuildFacts.build_circuit_absent _ _ _ _ _ _ H). cbn [fst snd].
    unfold failed_lines, failed_runs. simpl. split; [reflexivity|]. intros l [].
Qed.

Lemma build_all_failed (circuits : list string) (success : bool) (w : World) :
  let tr := snd (fst (build_all circuits success w)) in
  length (failed_lines tr) = length (failed_runs tr) /\
  (forall l, In l (failed_lines tr) ->
             exists name, In name circuits /\ l = "FAILED: " +:+ name).
Proof.
  revert success w. induction circuits as [|c rest IH]; intros success w.
  - simpl. split; [reflexivity|]. intros l [].
  - cbn [Build.build_all].
    pose proof (build_circuit_failed c w) as Hc.
    destruct (build_circuit c w) as [[ok ev] w']. cbn [fst snd] in Hc.
    specialize (IH (if negb ok then false else success) w').
    destruct (build_all rest (if negb ok then false else success) w')
      as [[result ev'] w'']. cbn [fst snd] in *.
    destruct Hc as [Hc1 Hc2], IH as [IH1 IH2].
    rewrite failed_lines_app, failed_runs_app, !length_app, Hc1, IH1.
    split; [reflexivity|]. intros l Hl. apply in_app_or in Hl as [Hl|Hl].
    + exists c. split; [now left|now apply Hc2].
    + destruct (IH2 l Hl) as (n & Hn & ->). exists n. split; [now right|reflexivity].
Qed.

End Orchestrator.
End BuildMore.

Lemma failed_runs_nil (rs : list (list string * Path.t * Z)) :
  forallb (fun r => (snd r =? 0)%Z) rs = true <->
  List.filter (fun r => negb (snd r =? 0)%Z) rs = [].
Proof.
  induction rs as [|r rs IH]; simpl; [tauto|].
  destruct (snd r =? 0)%Z; simpl; [exact IH|]. split; discriminate.
Qed.

(** X1: whatever the list of circuits and the world, every child process
    that [main] runs is the interpreter on [<name>.py] in the circuits
    directory for a name of the list, with the project root as working
    directory; nothing else is ever run. *)
Theorem main_runs_only_configured (I : Install) (World : Type)
    (path_exists : World -> Path.t -> bool)
    (subprocess_run : list string -> Path.t -> World -> Z * World)
    (circuits : list string) (w : World) :
  Forall (BuildSpec.configured_run I circuits)
    (Build.runs
       (snd (fst (Build.main_on I World path_exists subprocess_run circuits w)))).
Proof.
  unfold Build.main_on.
  pose proof (BuildMore.build_all_runs I World path_exists subprocess_run
                circuits true w) as H.
  destruct (Build.build_all I World path_exists subprocess_run circuits true w)
    as [[success ev] w']. cbn [fst snd] in H.
  destruct success; cbn [fst snd];
    rewrite !BuildFacts.runs_app; cbn [Build.runs app];
    now rewrite !app_nil_r.
Qed.

(** X2: when none of the circuits has a file, [main] runs no process,
    leaves the world as it is, prints one SKIP line per circuit between
    the banner and the BUILD COMPLETE line, and exits with 0; for the
    empty list this is the banner and the BUILD COMPLETE line alone. *)
Theorem main_all_absent (I : Install) (World : Type)
    (path_exists : World -> Path.t -> bool)
    (subprocess_run : list string -> Path.t -> World -> Z * World)
    (circuits : list string) (w : World) :
  (forall name, In name circuits ->
                path_exists w (circuits_dir I // (name +:+ ".py")) = false) ->
  Build.main_on I World path_exists subprocess_run circuits w =
    (0%Z,
     ([Build.EPrint "Trace Eurorack Module - Circuit Build";
       Build.EPrint (str_mul "=" 60)]
      ++ flat_map (BuildSpec.skip_events I) circuits
      ++ [Build.EPrint (nl +:+ str_mul "=" 60)])
     ++ [Build.EPrint "BUILD COMPLETE - All circuits generated successfully"],
     w).
Proof.
  intros H. unfold Build.main_on.
  now rewrite (BuildMore.build_all_absent I World path_exists subprocess_run
                 circuits true w H).
Qed.

Lemma main_all_absent_witness :
  Build.main_on Sample.install FS.t Sample.path_exists Sample.subprocess_run
    ["input_channel"; "mcu_display"; "user_controls"] Sample.checkout =
    (0%Z,
     ([Build.EPrint "Trace Eurorack Module - Circuit Build";
       Build.EPrint (str_mul "=" 60)]
      ++ flat_map (BuildSpec.skip_events Sample.install)
           ["input_channel"; "mcu_display"; "user_controls"]
      ++ [Build.EPrint (nl +:+ str_mul "=" 60)])
     ++ [Build.EPrint "BUILD COMPLETE - All circuits generated successfully"],
     Sample.checkout).
Proof.
  apply (main_all_absent Sample.install FS.t Sample.path_exists
           Sample.subprocess_run
           ["input_channel"; "mcu_display"; "user_controls"] Sample.checkout).
  intros name [<-|[<-|[<-|[]]]]; vm_compute; reflexivity.
Defined.

(** X3: [main] prints one [FAILED: <name>] line for each child that
    returned a code other than 0, each for a circuit of the list, and
    its exit status is 1 exactly when it printed such a line. *)
Theorem main_failed_lines (I : Install) (World : Type)
    (path_exists : World -> Path.t -> bool)
    (subprocess_run : list string -> Path.t -> World -> Z * World)
    (circuits : list string) (w : World) :
  let '(code, tr, _) := Build.main_on I World path_exists subprocess_run circuits w in
  length (BuildSpec.failed_lines tr) = length (BuildSpec.failed_runs tr) /\
  (forall l, In l (BuildSpec.failed_lines tr) ->
             exists name, In name circuits /\ l = "FAILED: " +:+ name) /\
  (code = 1%Z <-> BuildSpec.failed_lines tr <> []).
Proof.
  pose proof (BuildFacts.main_on_trace I World path_exists subprocess_run circuits w) as Ht.
  unfold Build.main_on in *.
  pose proof (BuildMore.build_all_failed I World path_exists subprocess_run
                circuits true w) as H.
  destruct (Build.build_all I World path_exists subprocess_run circuits true w)
    as [[success ev] w']. cbn [fst snd] in H. destruct H as [H1 H2].
  assert (forall fin,
            String.prefix "FAILED: " fin = false ->
            BuildSpec.failed_lines
              (([Build.EPrint "Trace Eurorack Module - Circuit Build";
                 Build.EPrint (str_mul "=" 60)]
                ++ ev ++ [Build.EPrint (nl +:+ str_mul "=" 60)])
               ++ [Build.EPrint fin]) = BuildSpec.failed_lines ev /\
            BuildSpec.failed_runs
              (([Build.EPrint "Trace Eurorack Module - Circuit Build";
                 Build.EPrint (str_mul "=" 60)]
                ++ ev ++ [Build.EPrint (nl +:+ str_mul "=" 60)])
               ++ [Build.EPrint fin]) = BuildSpec.failed_runs ev /\
            Build.runs
              (([Build.EPrint "Trace Eurorack Module - Circuit Build";
                 Build.EPrint (str_mul "=" 60)]
                ++ ev ++ [Build.EPrint (nl +:+ str_mul "=" 60)])
               ++ [Build.EPrint fin]) = Build.runs ev) as Hframe.
  { intros fin Hfin.
    rewrite !BuildMore.failed_lines_app, !BuildMore.failed_runs_app,
      !BuildFacts.runs_app.
    unfold BuildSpec.failed_lines at 1 3 4, BuildSpec.failed_runs at 1 3 4.
    cbn [Build.printed Build.runs List.filter]. rewrite Hfin.
    change (String.prefix "FAILED: " "Trace Eurorack Module - Circuit Build")
      with false.
    change (String.prefix "FAILED: " (str_mul "=" 60)) with false.
    change (String.prefix "FAILED: " (nl +:+ str_mul "=" 60)) with false.
    cbn [app]. now rewrite !app_nil_r. }
  assert (length (BuildSpec.failed_lines ev) = 0 <-> BuildSpec.failed_lines ev = [])
    as Hlen by (destruct (BuildSpec.failed_lines ev); simpl; split; congruence).
  destruct success.
  - destruct (Hframe "BUILD COMPLETE - All circuits generated successfully" eq_refl)
      as (-> & -> & Hr).
    destruct Ht as (_ & _ & Hc & _). rewrite Hr in Hc.
    split; [exact H1|]. split; [exact H2|].
    destruct (forallb (fun r => (snd r =? 0)%Z) (Build.runs ev)) eqn:Hall.
    + apply failed_runs_nil in Hall. fold (BuildSpec.failed_runs ev) in Hall.
      rewrite Hall in H1. apply Hlen in H1. split; [discriminate|congruence].
    + discriminate.
  - destruct (Hframe "BUILD FAILED - See errors above" eq_refl) as (-> & -> & Hr).
    destruct Ht as (_ & _ & Hc & _). rewrite Hr in Hc.
    split; [exact H1|]. split; [exact H2|].
    destruct (forallb (fun r => (snd r =? 0)%Z) (Build.runs ev)) eqn:Hall.
    + discriminate.
    + split; [|reflexivity]. intros _ Hnil.
      rewrite Hnil in H1. simpl in H1. symmetry in H1.
      apply length_zero_iff_nil in H1. fold (BuildSpec.failed_runs ev) in H1.
      apply failed_runs_nil in H1. congruence.
Qed.

(** * Further properties of [init_skidl] *)

Lemma mkdir_parents_blocked (files : FS.t) (p : Path.t) :
  (FS.resolve files p = FS.Found FS.File ->
   FS.mkdir_parents true files p = Raises FileExistsError) /\
  (FS.resolve files p = FS.NotDir ->
   FS.mkdir_parents true files p = Raises NotADirectoryError).
Proof.
  destruct p as [|a up]; [split; discriminate|].
  cbn [FS.mkdir_parents]. unfold FS.os_mkdir, FS.is_dir. cbn [FS.resolve].
  destruct (FS.resolve files up) as [[]| |]; split; try discriminate;
    try reflexivity.
  - destruct (files !! (a :: up)) as [[]|]; try discriminate. reflexivity.
  - destruct (files !! (a :: up)) as [[]|]; discriminate.
Qed.

(** X5: when the output directory, or a directory on the way to it, is a
    regular file, [init_skidl] raises - [FileExistsError] when the file is
    at the output directory itself, [NotADirectoryError] when it is above
    - after it has set the two variables, and it leaves the file system
    and the default tool as they were. *)
Theorem init_skidl_blocked (I : Install) (s : Proc) :
  FS.resolve (fs s) (Circuits.OUTPUT_DIR I) = FS.Found FS.File \/
  FS.resolve (fs s) (Circuits.OUTPUT_DIR I) = FS.NotDir ->
  let '(r, s') := Circuits.init_skidl I s in
  r = Raises (match FS.resolve (fs s) (Circuits.OUTPUT_DIR I) with
              | FS.Found FS.File => FileExistsError
              | _ => NotADirectoryError
              end) /\
  fs s' = fs s /\
  default_tool s' = default_tool s /\
  environ s' !! "KICAD8_SYMBOL_DIR" = Some Circuits.KICAD_SYMBOLS /\
  environ s' !! "KICAD8_FOOTPRINT_DIR" = Some Circuits.KICAD_FOOTPRINTS.
Proof.
  intros H. rewrite init_skidl_unfold. cbv zeta.
  destruct (mkdir_parents_blocked (fs s) (Circuits.OUTPUT_DIR I)) as [HF HN].
  destruct H as [H|H]; rewrite H; [rewrite (HF H)|rewrite (HN H)];
    cbn [fs default_tool environ]; repeat split;
    try apply lookup_insert_eq;
    rewrite lookup_insert_ne by discriminate; apply lookup_insert_eq.
Qed.

Lemma init_skidl_blocked_witness :
  let '(r, s') := Circuits.init_skidl Sample.install (fresh ∅ Sample.blocked) in
  r = Raises (match FS.resolve (fs (fresh ∅ Sample.blocked))
                      (Circuits.OUTPUT_DIR Sample.install) with
              | FS.Found FS.File => FileExistsError
              | _ => NotADirectoryError
              end) /\
  fs s' = fs (fresh ∅ Sample.blocked) /\
  default_tool s' = default_tool (fresh ∅ Sample.blocked) /\
  environ s' !! "KICAD8_SYMBOL_DIR" = Some Circuits.KICAD_SYMBOLS /\
  environ s' !! "KICAD8_FOOTPRINT_DIR" = Some Circuits.KICAD_FOOTPRINTS.
Proof.
  apply (init_skidl_blocked Sample.install (fresh ∅ Sample.blocked)).
  right. vm_compute. reflexivity.
Defined.

(** * Further properties of the power-supply script *)
Module ScriptMore.


(** What is reached in a file system is reached in every file system that
    holds it. *)
Lemma resolve_mono (files files' : FS.t) (p : Path.t) (k : FS.kind) :
  files ⊆ files' ->
  FS.resolve files p = FS.Found k -> FS.resolve files' p = FS.Found k.
Proof.
  intros Hsub. revert k. induction p as [|a up IH]; intros k; [trivial|].
  cbn [FS.resolve].
  destruct (FS.resolve files up) as [[]| |]; try discriminate.
  rewrite (IH FS.Dir eq_refl).
  destruct (files !! (a :: up)) as [k'|] eqn:E; [|discriminate].
  intros [= <-]. now rewrite (lookup_weaken _ _ _ _ E Hsub).
Qed.

Section Script.

Variable I : Install.
Variable L : Skidl.Library.

Local Abbreviation out := (Circuits.OUTPUT_DIR I).
Local Abbreviation np := (PowerSupply.netlist_path I).

(** One run, by the outcome of its two calls on the file system. *)
Lemma run_unfold (env : gmap string string) (files : FS.t) :
  PowerSupply.run I L env files =
  let env' :=
    <["KICAD8_FOOTPRINT_DIR" := Circuits.KICAD_FOOTPRINTS]>
      (<["KICAD8_SYMBOL_DIR" := Circuits.KICAD_SYMBOLS]> env) in
  let root := [Path.str (PowerSupply.PROJECT_ROOT I)] in
  let c := PowerSupply.graph L in
  match FS.mkdir_parents true files out with
  | Raises e =>
      (1%Z, mkProc env' files root None Skidl.default_circuit [] [] [])
  | Returns f1 =>
      match FS.write_file f1 np with
      | Raises e =>
          (1%Z,
           mkProc env' f1 root (Some Skidl.KICAD8) c (PowerSupply.console L c)
             (Skidl.erc_rules L c) [])
      | Returns f2 =>
          (0%Z,
           mkProc env' f2 root (Some Skidl.KICAD8) c
             (PowerSupply.console L c ++
                ["Netlist written to: " +:+ Path.str np])
             (Skidl.erc_rules L c) [(np, c)])
      end
  end.
Proof.
  unfold PowerSupply.run. rewrite PowerSupplyFacts.script_run. cbv zeta.
  destruct (FS.mkdir_parents true files out) as [f1|e]; [|reflexivity].
  destruct (FS.write_file f1 np); reflexivity.
Qed.



Lemma last_console (c : Skidl.Circuit) :
  last (PowerSupply.console L c) = Some (str_mul "=" 60).
Proof.
  unfold PowerSupply.console.
  change [nl +:+ str_mul "=" 60; "Generating netlist..."; str_mul "=" 60]
    with ([nl +:+ str_mul "=" 60; "Generating netlist..."] ++ [str_mul "=" 60]).
  rewrite !app_assoc. apply last_snoc.
Qed.

End Script.
End ScriptMore.

(** X6: the line [Netlist written to: <path>] is the last line the script
    prints exactly when its exit status is 0. *)
Theorem written_line_iff_success (I : Install) (L : Skidl.Library)
    (env : gmap string string) (files : FS.t) :
  let '(code, s) := PowerSupply.run I L env files in
  last (stdout s)
    = Some ("Netlist written to: " +:+ Path.str (PowerSupply.netlist_path I))
  <-> code = 0%Z.
Proof.
  rewrite ScriptMore.run_unfold. cbv zeta.
  destruct (FS.mkdir_parents true files (Circuits.OUTPUT_DIR I)) as [f1|e].
  - destruct (FS.write_file f1 (PowerSupply.netlist_path I)) as [f2|e];
      cbn [stdout].
    + rewrite last_snoc. tauto.
    + rewrite ScriptMore.last_console. split; discriminate.
  - cbn [stdout last]. split; discriminate.
Qed.

(** X8: after a run that ended with status 0, a further run - with any
    environment and any symbol library, from any file system that still
    holds what the first run left, whatever else was added to it - ends
    with status 0 too, and the netlist path is a regular file after it. *)
Theorem power_supply_rerun (I : Install) (L L' : Skidl.Library)
    (env env' : gmap string string) (files files2 : FS.t) :
  fst (PowerSupply.run I L env files) = 0%Z ->
  fs (snd (PowerSupply.run I L env files)) ⊆ files2 ->
  fst (PowerSupply.run I L' env' files2) = 0%Z /\
  FS.is_file (fs (snd (PowerSupply.run I L' env' files2)))
    (PowerSupply.netlist_path I) = true.
Proof.
  rewrite (ScriptMore.run_unfold I L env files). cbv zeta.
  destruct (FS.mkdir_parents true files (Circuits.OUTPUT_DIR I)) as [f1|e] eqn:Hmk;
    [|discriminate].
  destruct (FS.write_file f1 (PowerSupply.netlist_path I)) as [f2|e] eqn:Hwr;
    [|discriminate].
  intros _. cbn [snd fs]. intros Hsub.
  pose proof (FSFacts.mkdir_parents_is_dir _ _ _ Hmk) as Hd.
  apply WriteFacts.write_file_returns in Hwr as [-> _].
  assert (FS.is_dir files2 (Circuits.OUTPUT_DIR I) = true) as Hd2.
  { unfold FS.is_dir in *.
    destruct (FS.resolve f1 (Circuits.OUTPUT_DIR I)) as [[]| |] eqn:E;
      try discriminate Hd.
    rewrite (ScriptMore.resolve_mono _ files2 _ FS.Dir Hsub); [reflexivity|].
    rewrite FSFacts.resolve_insert_longer; [exact E|].
    unfold PowerSupply.netlist_path, Path.join. simpl. lia. }
  assert (files2 !! PowerSupply.netlist_path I = Some FS.File) as Hnp.
  { eapply lookup_weaken; [|exact Hsub]. apply lookup_insert_eq. }
  rewrite ScriptMore.run_unfold. cbv zeta.
  rewrite (FSFacts.mkdir_parents_existing _ _ Hd2).
  destruct (WriteFacts.write_file_in_dir files2 "power_supply.net"
              (Circuits.OUTPUT_DIR I) Hd2) as [f3 Hf3].
  { unfold PowerSupply.netlist_path, Path.join in Hnp. rewrite Hnp. discriminate. }
  change ("power_supply.net" :: Circuits.OUTPUT_DIR I)
    with (PowerSupply.netlist_path I) in Hf3.
  rewrite Hf3. cbn [fst snd fs]. split; [reflexivity|].
  now apply WriteFacts.write_file_returns in Hf3.
Qed.

Lemma power_supply_rerun_witness :
  let files2 :=
    <[ ["power_supply.log"; "trace-eurorack-module"; "dev"; "home"] := FS.File ]>
      (fs (snd (PowerSupply.run Sample.install Sample.clean ∅ Sample.checkout))) in
  fst (PowerSupply.run Sample.install Sample.faulty ∅ files2) = 0%Z /\
  FS.is_file (fs (snd (PowerSupply.run Sample.install Sample.faulty ∅ files2)))
    (PowerSupply.netlist_path Sample.install) = true.
Proof.
  apply (power_supply_rerun Sample.install Sample.clean Sample.faulty ∅ ∅
           Sample.checkout).
  - vm_compute. reflexivity.
  - apply insert_subseteq. vm_compute. reflexivity.
Defined.





(** * The orchestrator over the power-supply script *)
Section BuildOverScript.

Variable I : Install.

(** The interpreter: what it returns and what it leaves when it is
    started on a script. *)
Variable python : list string -> Path.t -> FS.t -> Z * FS.t.


End BuildOverScript.





(** * Further properties of the summary *)
Module SortMore.
Section ByKey.

Context {A : Type} (key : A -> string).

Lemma key_injective_on (l : list A) (x y : A) :
  List.NoDup (map key l) -> In x l -> In y l -> key x = key y -> x = y.
Proof.
  induction l as [|a l IH]; intros Hnd Hx Hy Hk; [destruct Hx|].
  cbn [map] in Hnd. apply List.NoDup_cons_iff in Hnd as [Ha Hnd].
  destruct Hx as [<-|Hx], Hy as [<-|Hy]; auto.
  - exfalso. apply Ha. rewrite Hk. now apply List.in_map.
  - exfalso. apply Ha. rewrite <- Hk. now apply List.in_map.
Qed.

(** Two sorted lists with the same elements and no key twice are one
    list. *)
Lemma sorted_unique (l1 l2 : list A) :
  StronglySorted (key_le key) l1 -> StronglySorted (key_le key) l2 ->
  Permutation l1 l2 -> List.NoDup (map key l1) -> l1 = l2.
Proof.
  intros H1. revert l2. induction H1 as [|a l1 Hs1 IH Ha]; intros l2 H2 Hp Hnd.
  - now apply Permutation_nil in Hp.
  - destruct H2 as [|b l2 Hs2 Hb].
    + apply Permutation_sym, Permutation_nil in Hp. discriminate.
    + assert (a = b) as ->.
      { assert (In a (b :: l2)) as Hin1
          by (eapply Permutation_in; [exact Hp|now left]).
        assert (In b (a :: l1)) as Hin2
          by (eapply Permutation_in; [symmetry; exact Hp|now left]).
        destruct Hin1 as [<-|Hin1]; [reflexivity|].
        destruct Hin2 as [->|Hin2]; [reflexivity|].
        rewrite List.Forall_forall in Ha, Hb.
        apply (key_injective_on (a :: l1)); auto; [now left|now right|].
        apply String.leb_antisym; [exact (Ha _ Hin2)|exact (Hb _ Hin1)]. }
      f_equal. apply IH; [exact Hs2|now apply Permutation_cons_inv in Hp|].
      cbn [map] in Hnd. now apply List.NoDup_cons_iff in Hnd.
Qed.

Lemma sorted_permutation_invariant (l l' : list A) :
  Permutation l l' -> List.NoDup (map key l) -> sorted key l = sorted key l'.
Proof.
  intros Hp Hnd. apply sorted_unique.
  - apply SortFacts.sorted_sorted.
  - apply SortFacts.sorted_sorted.
  - rewrite <- !SortFacts.sorted_perm. exact Hp.
  - eapply Permutation_NoDup; [|exact Hnd].
    apply Permutation_map, SortFacts.sorted_perm.
Qed.

End ByKey.
End SortMore.

(** X13: the listing does not depend on the order of declaration: two
    circuits with the same parts and the same nets, in whatever order, get
    the same list of parts and the same list of nets in the summary,
    provided no reference and no net name occurs twice. *)
Theorem listing_ignores_declaration_order (c c' : Skidl.Circuit) :
  Permutation (Skidl.parts c) (Skidl.parts c') ->
  List.NoDup (map Skidl.part_ref (Skidl.parts c)) ->
  Permutation (Skidl.nets c) (Skidl.nets c') ->
  List.NoDup (map Skidl.net_name (Skidl.nets c)) ->
  PowerSupply.listed_parts c = PowerSupply.listed_parts c' /\
  PowerSupply.listed_nets c = PowerSupply.listed_nets c'.
Proof.
  intros Hp Hr Hn Hm. unfold PowerSupply.listed_parts, PowerSupply.listed_nets.
  rewrite (SortMore.sorted_permutation_invariant _ _ _ Hp Hr).
  now rewrite (SortMore.sorted_permutation_invariant _ _ _ Hn Hm).
Qed.

Lemma listing_ignores_declaration_order_witness :
  PowerSupply.listed_parts Sample2.declared
    = PowerSupply.listed_parts Sample2.reversed /\
  PowerSupply.listed_nets Sample2.declared
    = PowerSupply.listed_nets Sample2.reversed.
Proof.
  apply (listing_ignores_declaration_order Sample2.declared Sample2.reversed).
  - apply Permutation_rev.
  - apply NoDup_ListNoDup. apply (bool_decide_unpack _). vm_compute. reflexivity.
  - apply Permutation_rev.
  - apply NoDup_ListNoDup. apply (bool_decide_unpack _). vm_compute. reflexivity.
Defined.

(** X14: the summary has one line per part, as many as [Total Parts]
    says, and one line per net that is shown; the nets that [Total Nets]
    counts are the ones listed and the ones hidden (without a name, or
    with a name that starts with [N$]). *)
Theorem summary_counts (L : Skidl.Library) (c : Skidl.Circuit) :
  length (PowerSupply.listed_parts c) = length (Skidl.parts c) /\
  PowerSupply.summary L c !! 3
    = Some ("Total Parts: " +:+ str_of_nat (length (PowerSupply.listed_parts c))) /\
  PowerSupply.summary L c !! 4
    = Some ("Total Nets: " +:+ str_of_nat (length (Skidl.nets c))) /\
  length (Skidl.nets c)
    = length (PowerSupply.listed_nets c)
      + length (List.filter (fun n => negb (PowerSupply.shown n)) (Skidl.nets c)) /\
  length (PowerSupply.summary L c)
    = 7 + length (Skidl.parts c) + length (PowerSupply.listed_nets c).
Proof.
  assert (length (PowerSupply.listed_parts c) = length (Skidl.parts c)) as Hparts.
  { unfold PowerSupply.listed_parts. symmetry.
    apply Permutation_length, SortFacts.sorted_perm. }
  split; [exact Hparts|]. split; [now rewrite Hparts|]. split; [reflexivity|].
  split.
  - unfold PowerSupply.listed_nets.
    rewrite <- (Permutation_length
                  (SortFacts.filter_perm PowerSupply.shown _ _
                     (SortFacts.sorted_perm Skidl.net_name (Skidl.nets c)))).
    induction (Skidl.nets c) as [|n ns IH]; [reflexivity|].
    cbn [List.filter length]. destruct (PowerSupply.shown n); cbn [negb length]; lia.
  - unfold PowerSupply.summary. rewrite !length_app, !length_map. cbn [length].
    rewrite Hparts. lia.
Qed.

(** X15: the graph that the script declares is well formed for every
    symbol library: it has seven parts and, with the library's no-connect
    net, which comes first and has no pin, eight nets; every net that the
    script declares or that a connection creates has a pin, every pin on a
    net belongs to a declared part, and no pin is on two nets or twice on
    one. *)
Theorem declared_graph_well_formed (L : Skidl.Library) :
  let g := PowerSupply.graph L in
  length (Skidl.parts g) = 7 /\
  length (Skidl.nets g) = 8 /\
  Skidl.nets g !! 0 = Some Skidl.NC /\
  Forall (fun n => Skidl.net_pins n <> []) (tail (Skidl.nets g)) /\
  Forall (fun p => Skidl.pin_part p < length (Skidl.parts g))
    (concat (map Skidl.net_pins (Skidl.nets g))) /\
  NoDup (concat (map Skidl.net_pins (Skidl.nets g))).
Proof.
  intros g. subst g.
  split; [vm_compute; reflexivity|]. split; [vm_compute; reflexivity|].
  split; [vm_compute; reflexivity|].
  split; [|split].
  - apply Forall_forall. intros n Hn Hnil.
    assert (forallb (fun n => negb (Nat.eqb (length (Skidl.net_pins n)) 0))
              (tail (Skidl.nets (PowerSupply.graph L))) = true) as H
      by (vm_compute; reflexivity).
    apply list_elem_of_In in Hn.
    rewrite forallb_forall in H. specialize (H n Hn).
    rewrite Hnil in H. discriminate H.
  - apply Forall_forall. intros p Hp.
    assert (forallb (fun p => Nat.ltb (Skidl.pin_part p) 7)
              (concat (map Skidl.net_pins (Skidl.nets (PowerSupply.graph L)))) = true)
      as H by (vm_compute; reflexivity).
    apply list_elem_of_In in Hp.
    rewrite forallb_forall in H. specialize (H p Hp).
    apply Nat.ltb_lt in H.
    replace (length (Skidl.parts (PowerSupply.graph L))) with 7
      by (vm_compute; reflexivity).
    exact H.
  - apply (bool_decide_unpack _). vm_compute. reflexivity.
Qed.
